(** * Typso: a runtime type-validation utility (src/typso.js)

    A shallow embedding of the validation engine of [typso.js]: the static
    methods of class [Typso], the helper [normalize], and the fragment of
    JavaScript they rely on ([typeof], [instanceof], property access, the
    relational operators, template literals, [Array.prototype.forEach]).

    Layout:
    - [JS]: values and the language operations the source uses;
    - [Eff]: the state-and-exception monad in which the methods run;
    - [Typso]: the class, one definition per method, same names;
    - [Normalize]: the default-filling helper [normalize];
    - [Adapters]: [enforceType], [withPropTypes], [validateRequestBody];
    - [Laws]: predicates used to state properties;
    - [Sample], [Sample2]: concrete hosts, for running examples;
    - the properties, then the properties at concrete inputs.

    Scope of the model. Values are [undefined], [null], booleans, numbers,
    strings, dense arrays, plain objects and functions; there are no
    accessor properties and no proxies. A method of the class is always
    called on the class ([this] is [Typso]). What user code and the built-in
    conversions do is a parameter, the [host]. Of React and Express the
    adapters use only the element a JSX expression builds and
    [res.status(code).json(body)]; these are kept as a record and as a list
    of replies. *)

From Stdlib Require Import String Ascii List Bool Arith ZArith QArith Lia.
From Stdlib Require Import DecimalString DecimalNat.
Import ListNotations.
Local Open Scope nat_scope.
Local Open Scope list_scope.
Local Open Scope string_scope.

(* ================================================================== *)
(** * The JavaScript fragment *)
(* ================================================================== *)

Module JS.

(** Prototype objects, by identity. [instanceof] only asks whether a
    constructor's [prototype] occurs in the prototype chain of a value. *)
Inductive proto : Type :=
| ObjectProto
| FunctionProto
| ArrayProto
| DateProto
| ClassProto (n : nat).

Definition proto_eqb (p q : proto) : bool :=
  match p, q with
  | ObjectProto, ObjectProto => true
  | FunctionProto, FunctionProto => true
  | ArrayProto, ArrayProto => true
  | DateProto, DateProto => true
  | ClassProto n, ClassProto m => Nat.eqb n m
  | _, _ => false
  end.

(** A function object: an identity (its behaviour is looked up in the
    host), its [name] and [length] properties, and its [prototype]
    property when it has one (arrow functions and methods have none). *)
Record func : Type := {
  fn_id : nat;
  fn_name : string;
  fn_length : nat;
  fn_prototype : option proto
}.

(** Numbers. Every finite double is a rational and [<] on doubles is the
    order of the rationals they denote, so a finite number is kept as a
    [Q]; [NaN] and the two infinities are separate. *)
Inductive number : Type :=
| NaN
| NegInf
| Fin (q : Q)
| PosInf.

(** Values. An array is the list of its elements (dense, no holes, no
    named properties); a plain object is its prototype chain and its own
    enumerable properties in the order [Object.keys] lists them, the first
    binding of a key being the live one. Symbols and BigInts are left out. *)
#[warnings="-register-all"]
Inductive value : Type :=
| VUndefined
| VNull
| VBool (b : bool)
| VNum (n : number)
| VStr (s : string)
| VArr (items : list value)
| VObj (chain : list proto) (props : list (string * value))
| VFun (f : func).

(** Primitive values, the results of [ToPrimitive]. *)
Inductive prim : Type :=
| PUndefined
| PNull
| PBool (b : bool)
| PNum (n : number)
| PStr (s : string).

(** What a [throw] carries: an [Error] built by the library with
    [new Error(message)], a [TypeError] raised by the language itself while
    it runs the library's code (property access on [null], a call of a
    non-function, a non-callable right operand of [instanceof]), or the
    value a user function threw. *)
Inductive exn : Type :=
| JsError (message : string)
| NativeTypeError
| Thrown (v : value).

Definition result (A : Type) : Type := (exn + A)%type.

(** Was the exception built by the library's [throw new Error(...)]? *)
Definition library_error (e : exn) : bool :=
  match e with
  | JsError _ => true
  | _ => false
  end.

(** How a call of a user function ends. *)
Inductive completion : Type :=
| Returns (v : value)
| Throws (v : value).

(** The host: everything the source can trigger that is not code of the
    library. User functions are deterministic and can neither observe nor
    change the validator's mode; they terminate. The one way user code runs
    code of the library is a [forEach] of its own, which calls the callback
    it is given. Conversions of objects ([toString], [valueOf]) do not
    throw. *)
Record host : Type := {
  (** [f.call(this, ...args)] for a user function *)
  host_call : func -> value -> list value -> completion;
  (** [f.call(this, callback)] for a [forEach] that is not the one of
      arrays (that of a [Set], a [Map], a typed array, or one written by the
      user): the items it hands to the callback, in order, and how it ends
      after the callback has returned for the last of them *)
  host_forEach : func -> value -> list value * completion;
  (** properties of a non-plain-object receiver that the model does not
      keep in the value itself (inherited methods, statics of a function) *)
  host_get : value -> string -> value;
  (** properties a plain object inherits through its prototype chain *)
  host_inherited : list proto -> string -> value;
  (** own enumerable keys of a function object *)
  host_fn_keys : func -> list string;
  (** [String(v)] for numbers and objects *)
  host_to_string : value -> string;
  (** [ToPrimitive] of an array, object or function *)
  host_to_primitive : value -> prim;
  (** [Number(s)] for a string *)
  host_string_to_number : string -> number
}.

(** ** Operators that need no host *)

Definition typeof (v : value) : string :=
  match v with
  | VUndefined => "undefined"
  | VNull => "object"
  | VBool _ => "boolean"
  | VNum _ => "number"
  | VStr _ => "string"
  | VArr _ => "object"
  | VObj _ _ => "object"
  | VFun _ => "function"
  end.

(** [ToBoolean]. *)
Definition truthy (v : value) : bool :=
  match v with
  | VUndefined | VNull => false
  | VBool b => b
  | VNum NaN => false
  | VNum (Fin q) => negb (Qeq_bool q 0)
  | VNum _ => true
  | VStr s => negb (s =? "")
  | VArr _ | VObj _ _ | VFun _ => true
  end.

(** [s === v] and [s !== v] for a string [s]. *)
Definition str_strict_eq (s : string) (v : value) : bool :=
  match v with
  | VStr t => s =? t
  | _ => false
  end.

(** [v === undefined]. *)
Definition is_undefined (v : value) : bool :=
  match v with
  | VUndefined => true
  | _ => false
  end.

Definition Array_isArray (v : value) : bool :=
  match v with
  | VArr _ => true
  | _ => false
  end.

Definition Number_isNaN (v : value) : bool :=
  match v with
  | VNum NaN => true
  | _ => false
  end.

(** A parameter with a default: the default applies when the argument is
    missing or [undefined]. *)
Definition default_arg (arg dflt : value) : value :=
  match arg with
  | VUndefined => dflt
  | _ => arg
  end.

(** The property key of an array index. *)
Definition index_key (i : nat) : string :=
  NilEmpty.string_of_uint (Nat.to_uint i).

Definition num_of_nat (n : nat) : number := Fin (inject_Z (Z.of_nat n)).

Definition Qlt_bool (x y : Q) : bool := negb (Qle_bool y x).

(** [a < b] on numbers; any comparison with [NaN] is false. *)
Definition num_lt (a b : number) : bool :=
  match a, b with
  | NaN, _ | _, NaN => false
  | _, NegInf => false
  | NegInf, _ => true
  | PosInf, _ => false
  | Fin _, PosInf => true
  | Fin x, Fin y => Qlt_bool x y
  end.

(** The order of numbers as a proposition: [NaN] is below nothing and
    nothing is below it. *)
Definition below (a b : number) : Prop :=
  match a, b with
  | Fin x, Fin y => (x < y)%Q
  | NegInf, Fin _ | NegInf, PosInf | Fin _, PosInf => True
  | _, _ => False
  end.

Fixpoint assoc (k : string) (props : list (string * value)) : option value :=
  match props with
  | [] => None
  | (k', v) :: rest => if k =? k' then Some v else assoc k rest
  end.

(** [o[k] = v] on the own properties of a plain object: an existing
    binding is overwritten in place, a new key is added last. (JavaScript
    lists a new integer-like key before the string keys; nothing here reads
    the key order of an object it has assigned to.) *)
Fixpoint assign (k : string) (v : value) (props : list (string * value))
  : list (string * value) :=
  match props with
  | [] => [(k, v)]
  | (k', v') :: rest =>
      if k =? k' then (k, v) :: rest else (k', v') :: assign k v rest
  end.

(** The own keys of a plain object, each once, in the order of their
    first binding. *)
Fixpoint own_keys (props : list (string * value)) : list string :=
  match props with
  | [] => []
  | (k, _) :: rest => k :: filter (fun k' => negb (k' =? k)) (own_keys rest)
  end.

(** The length of a string or of an array; other values have none. *)
Definition length_of (v : value) : option nat :=
  match v with
  | VStr s => Some (String.length s)
  | VArr items => Some (length items)
  | _ => None
  end.

(** The chain of prototypes of an object; [None] for a primitive. *)
Definition proto_chain (v : value) : option (list proto) :=
  match v with
  | VArr _ => Some [ArrayProto; ObjectProto]
  | VObj chain _ => Some chain
  | VFun _ => Some [FunctionProto; ObjectProto]
  | _ => None
  end.

(** [v instanceof c]. A right operand that is not callable throws (no
    object of the model defines [Symbol.hasInstance]); for a function it is
    [OrdinaryHasInstance]: a primitive is an instance of nothing, a function
    without an object [prototype] throws, otherwise the prototype is
    searched in the chain of [v]. *)
Definition instanceof (v c : value) : result bool :=
  match c with
  | VFun f =>
      match proto_chain v with
      | None => inr false
      | Some chain =>
          match fn_prototype f with
          | None => inl NativeTypeError
          | Some p => inr (existsb (proto_eqb p) chain)
          end
      end
  | _ => inl NativeTypeError
  end.

(** The global [Date] constructor. *)
Definition Date : func :=
  {| fn_id := 0; fn_name := "Date"; fn_length := 7;
     fn_prototype := Some DateProto |}.

(** [s.includes(t)] on strings. *)
Definition str_includes (s t : string) : bool :=
  match String.index 0 t s with
  | Some _ => true
  | None => false
  end.

Section WithHost.

Variable h : host.

(** [ToString], as a template literal applies it. *)
Definition ToString (v : value) : string :=
  match v with
  | VUndefined => "undefined"
  | VNull => "null"
  | VBool true => "true"
  | VBool false => "false"
  | VStr s => s
  | _ => host_to_string h v
  end.

Definition ToPrimitive (v : value) : prim :=
  match v with
  | VUndefined => PUndefined
  | VNull => PNull
  | VBool b => PBool b
  | VNum n => PNum n
  | VStr s => PStr s
  | _ => host_to_primitive h v
  end.

Definition ToNumber (p : prim) : number :=
  match p with
  | PUndefined => NaN
  | PNull => Fin 0
  | PBool true => Fin 1
  | PBool false => Fin 0
  | PNum n => n
  | PStr s => host_string_to_number h s
  end.

(** [a < b]: two strings compare by code units, anything else as numbers. *)
Definition js_lt (a b : value) : bool :=
  match ToPrimitive a, ToPrimitive b with
  | PStr s, PStr t => String.ltb s t
  | pa, pb => num_lt (ToNumber pa) (ToNumber pb)
  end.

(** [a > b] is [b < a]. *)
Definition js_gt (a b : value) : bool := js_lt b a.

(** [o[k]] on a plain object: own property first, then the chain. *)
Definition obj_get (chain : list proto) (props : list (string * value))
  (k : string) : value :=
  match assoc k props with
  | Some v => v
  | None => host_inherited h chain k
  end.

(** The element of an array or the character of a string at key [k],
    when [k] is the key of an index in range. *)
Definition index_of_key (len : nat) (k : string) : option nat :=
  find (fun i => index_key i =? k) (seq 0 len).

(** [o[k]]: reading a property. It throws on [undefined] and [null]. *)
Definition js_get (o : value) (k : string) : result value :=
  match o with
  | VUndefined | VNull => inl NativeTypeError
  | VBool _ | VNum _ => inr (host_get h o k)
  | VStr s =>
      if k =? "length" then inr (VNum (num_of_nat (String.length s)))
      else match index_of_key (String.length s) k with
           | Some i =>
               match String.get i s with
               | Some c => inr (VStr (String c EmptyString))
               | None => inr VUndefined
               end
           | None => inr (host_get h o k)
           end
  | VArr items =>
      if k =? "length" then inr (VNum (num_of_nat (length items)))
      else match index_of_key (length items) k with
           | Some i => inr (nth i items VUndefined)
           | None => inr (host_get h o k)
           end
  | VObj chain props => inr (obj_get chain props k)
  | VFun f =>
      if k =? "name" then inr (VStr (fn_name f))
      else if k =? "length" then inr (VNum (num_of_nat (fn_length f)))
      else inr (host_get h o k)
  end.

(** [Object.keys(o)]. *)
Definition Object_keys (o : value) : result (list string) :=
  match o with
  | VUndefined | VNull => inl NativeTypeError
  | VBool _ | VNum _ => inr []
  | VStr s => inr (map index_key (seq 0 (String.length s)))
  | VArr items => inr (map index_key (seq 0 (length items)))
  | VObj _ props => inr (own_keys props)
  | VFun f => inr (host_fn_keys h f)
  end.

(** [f.call(this, ...args)]: calling a non-function throws. *)
Definition js_call (f this : value) (args : list value) : result value :=
  match f with
  | VFun fn =>
      match host_call h fn this args with
      | Returns v => inr v
      | Throws v => inl (Thrown v)
      end
  | _ => inl NativeTypeError
  end.

(** [recv.name(...args)] for a method the model does not build in. *)
Definition js_invoke (recv : value) (name : string) (args : list value)
  : result value :=
  match js_get recv name with
  | inl e => inl e
  | inr f => js_call f recv args
  end.

(** [types.includes(x)]: [Array.prototype.includes] compares with
    SameValueZero, [String.prototype.includes] searches a substring. *)
Definition js_includes (types : value) (x : string) : result value :=
  match types with
  | VArr items => inr (VBool (existsb (str_strict_eq x) items))
  | VStr s => inr (VBool (str_includes s x))
  | _ => js_invoke types "includes" [VStr x]
  end.

(** [Array.prototype.join]: [undefined] and [null] print as nothing. *)
Definition join_item (v : value) : string :=
  match v with
  | VUndefined | VNull => ""
  | _ => ToString v
  end.

Fixpoint join_items (sep : string) (items : list value) : string :=
  match items with
  | [] => ""
  | [v] => join_item v
  | v :: rest => join_item v ++ sep ++ join_items sep rest
  end.

Definition js_join (types : value) (sep : string) : result value :=
  match types with
  | VArr items => inr (VStr (join_items sep items))
  | _ => js_invoke types "join" [VStr sep]
  end.

End WithHost.

End JS.

(* ================================================================== *)
(** * Effects: mutable state and exceptions *)
(* ================================================================== *)

(** A computation takes the current state and gives back a result or an
    exception together with the state it leaves behind: what was written
    before a [throw] stays written. *)
Module Eff.
Import JS.

Definition M (S A : Type) : Type := S -> result A * S.

Section Monad.

Context {S : Type}.

Definition ret {A : Type} (a : A) : M S A := fun s => (inr a, s).

Definition bind {A B : Type} (c : M S A) (k : A -> M S B) : M S B :=
  fun s =>
    match c s with
    | (inl e, s') => (inl e, s')
    | (inr a, s') => k a s'
    end.

Definition throw {A : Type} (e : exn) : M S A := fun s => (inl e, s).

(** A pure step that may throw. *)
Definition lift {A : Type} (r : result A) : M S A := fun s => (r, s).

Definition get : M S S := fun s => (inr s, s).

Definition modify (f : S -> S) : M S unit := fun s => (inr tt, f s).

(** [if (b) { c }] *)
Definition when (b : bool) (c : M S unit) : M S unit :=
  if b then c else ret tt.

(** [items.forEach(callback)] on an array: elements in order; an
    exception of the callback ends the loop. *)
Fixpoint forEach {A : Type} (items : list A) (callback : A -> M S unit)
  : M S unit :=
  match items with
  | [] => ret tt
  | item :: rest => bind (callback item) (fun _ => forEach rest callback)
  end.

End Monad.

Module Notations.
Notation "x <- c1 ;; c2" := (bind c1 (fun x => c2))
  (at level 61, c1 at next level, right associativity).
Notation "c1 ;; c2" := (bind c1 (fun _ => c2))
  (at level 61, right associativity).
End Notations.

End Eff.

(* ================================================================== *)
(** * class Typso *)
(* ================================================================== *)

Module Typso.
Import JS Eff Eff.Notations.

(** The static fields of the class and the console. Both flags hold
    whatever value the setters were given; [logWarnings] is tested for
    truthiness. *)
Record state : Type := {
  isStrict : value;
  logWarnings : value;
  console : list value
}.

(** [static isStrict = true; static logWarnings = false;] *)
Definition initial : state :=
  {| isStrict := VBool true; logWarnings := VBool false; console := [] |}.

Definition set_isStrict (v : value) (st : state) : state :=
  {| isStrict := v; logWarnings := logWarnings st; console := console st |}.

Definition set_logWarnings (v : value) (st : state) : state :=
  {| isStrict := isStrict st; logWarnings := v; console := console st |}.

Definition log (message : value) (st : state) : state :=
  {| isStrict := isStrict st; logWarnings := logWarnings st;
     console := (console st ++ [message])%list |}.

(** The state after [console.warn] was called on each of [messages]. *)
Definition log_all (messages : list value) (st : state) : state :=
  {| isStrict := isStrict st; logWarnings := logWarnings st;
     console := (console st ++ messages)%list |}.

(** Warn-only mode is on when [this.logWarnings] is truthy. *)
Definition warn_only (st : state) : bool := truthy (logWarnings st).

(** [console.warn(message)] *)
Definition console_warn (message : value) : M state unit :=
  modify (log message).

Section Methods.

Variable h : host.

(** [new Error(message)]: the message is converted to a string unless
    it is [undefined]. *)
Definition new_Error (message : value) : exn :=
  match message with
  | VUndefined => JsError ""
  | _ => JsError (ToString h message)
  end.

(** [a || b], with [b] evaluated only when [a] is falsy. *)
Definition or_else (a : value) (b : M state value) : M state value :=
  if truthy a then ret a else b.

(** [variable.forEach(callback)]. An array has the built-in one. For
    any other value the property [forEach] is read, which throws on [null]
    and [undefined], and called, which throws when it is not a function; a
    [forEach] of the host runs the callback on each item it hands over, an
    exception of the callback ending the call, and then returns or throws. *)
Definition js_forEach (variable : value) (callback : value -> M state unit)
  : M state unit :=
  match variable with
  | VArr items => forEach items callback
  | _ =>
      method <- lift (js_get h variable "forEach") ;;
      match method with
      | VFun fn =>
          forEach (fst (host_forEach h fn variable)) callback ;;
          match snd (host_forEach h fn variable) with
          | Returns _ => ret tt
          | Throws thrown => throw (Thrown thrown)
          end
      | _ => throw NativeTypeError
      end
  end.

(** How [variable.forEach(callback)] ends when [variable] is not an
    array and the callback never throws. *)
Definition forEach_outcome (variable : value) : result unit :=
  match js_get h variable "forEach" with
  | inl e => inl e
  | inr (VFun fn) =>
      match snd (host_forEach h fn variable) with
      | Returns _ => inr tt
      | Throws thrown => inl (Thrown thrown)
      end
  | inr _ => inl NativeTypeError
  end.

(** The items [variable.forEach] hands to its callback when [variable] is
    not an array: those of its own [forEach], none when it has none. *)
Definition handed_over (variable : value) : list value :=
  match js_get h variable "forEach" with
  | inr (VFun fn) => fst (host_forEach h fn variable)
  | _ => []
  end.

(** Private: Throw or Warn *)
Definition _throwError (message : value) : M state unit :=
  st <- get ;;
  if warn_only st then console_warn message
  else throw (new_Error message).

(** Basic Type Checking *)
Definition checkType (variable type customMessage : value) : M state unit :=
  let customMessage := default_arg customMessage VNull in
  when (negb (str_strict_eq (typeof variable) type))
    (message <- or_else customMessage
       (ret (VStr ("TypeError: Expected " ++ ToString h type
                   ++ " but received " ++ typeof variable))) ;;
     _throwError message).

(** The message a failing [checkType] reports: [customMessage || `TypeError: ...`]. *)
Definition type_message (variable type customMessage : value) : value :=
  if truthy (default_arg customMessage VNull)
  then default_arg customMessage VNull
  else VStr ("TypeError: Expected " ++ ToString h type
             ++ " but received " ++ typeof variable).

(** [typeof item !== type], the test of [checkType]. *)
Definition mismatch (type item : value) : bool :=
  negb (str_strict_eq (typeof item) type).

Definition checkInstance (variable instance customMessage : value)
  : M state unit :=
  let customMessage := default_arg customMessage VNull in
  isInstance <- lift (instanceof variable instance) ;;
  when (negb isInstance)
    (message <- or_else customMessage
       (name <- lift (js_get h instance "name") ;;
        ret (VStr ("TypeError: Expected instance of " ++ ToString h name))) ;;
     _throwError message).

(** Array Type Checking *)
Definition checkArray (variable elementType customMessage : value)
  : M state unit :=
  let customMessage := default_arg customMessage VNull in
  when (negb (Array_isArray variable))
    (_throwError (VStr "TypeError: Expected an array")) ;;
  js_forEach variable (fun item => checkType item elementType customMessage).

(** Union Type Checking (string | number) *)
Definition checkUnion (variable types customMessage : value) : M state unit :=
  let customMessage := default_arg customMessage VNull in
  included <- lift (js_includes h types (typeof variable)) ;;
  when (negb (truthy included))
    (message <- or_else customMessage
       (joined <- lift (js_join h types ", ") ;;
        ret (VStr ("TypeError: Expected one of [" ++ ToString h joined
                   ++ "] but received " ++ typeof variable))) ;;
     _throwError message).

(** Custom Validation *)
Definition checkCustom (variable validationFunc customMessage : value)
  : M state unit :=
  let customMessage := default_arg customMessage VNull in
  verdict <- lift (js_call h validationFunc VUndefined [variable]) ;;
  when (negb (truthy verdict))
    (message <- or_else customMessage
       (ret (VStr "ValidationError: Custom validation failed")) ;;
     _throwError message).

(** [Array.isArray(expectedType) && expectedType[0] === 'array'] *)
Definition is_array_descriptor (expectedType : value) : bool :=
  Array_isArray expectedType
  && match js_get h expectedType (index_key 0) with
     | inr first => str_strict_eq "array" first
     | inl _ => false
     end.

(** Private: Check Field in Object Schema *)
Definition _checkSchemaField (value expectedType : value) : M state unit :=
  if typeof expectedType =? "string" then
    checkType value expectedType VUndefined
  else if is_array_descriptor expectedType then
    elementType <- lift (js_get h expectedType (index_key 1)) ;;
    checkArray value elementType VUndefined
  else if typeof expectedType =? "function" then
    checkCustom value expectedType VUndefined
  else
    checkInstance value expectedType VUndefined.

(** Object Schema Validation *)
Definition checkObject (variable schema : value) : M state unit :=
  when (negb (typeof variable =? "object") || Array_isArray variable)
    (_throwError (VStr "TypeError: Expected an object")) ;;
  keys <- lift (Object_keys h schema) ;;
  forEach keys (fun key =>
    expectedType <- lift (js_get h schema key) ;;
    value <- lift (js_get h variable key) ;;
    _checkSchemaField value expectedType).

(** Advanced: Date, Boolean, Custom Validations *)
Definition checkDate (variable : value) : M state unit :=
  isDate <- lift (instanceof variable (VFun Date)) ;;
  when (negb isDate) (_throwError (VStr "TypeError: Expected a Date")).

Definition checkBoolean (variable : value) : M state unit :=
  checkType variable (VStr "boolean") VUndefined.

(** Check Not NaN *)
Definition checkNotNaN (variable : value) : M state unit :=
  when (Number_isNaN variable)
    (_throwError (VStr "TypeError: Value should not be NaN")).

(** Helper for Strict Mode *)
Definition enforceStrictMode (strict : value) : M state unit :=
  let strict := default_arg strict (VBool true) in
  modify (set_isStrict strict).

(** Helper for Logging Warnings *)
Definition enableWarnings (enable : value) : M state unit :=
  let enable := default_arg enable (VBool false) in
  modify (set_logWarnings enable).

(** Utility to check ranges and lengths (for numbers and arrays) *)
Definition checkRange (value min max : value) : M state unit :=
  when (js_lt h value min || js_gt h value max)
    (_throwError (VStr ("RangeError: Value should be between "
                        ++ ToString h min ++ " and " ++ ToString h max))).

Definition checkLength (value minLength maxLength : value) : M state unit :=
  len <- lift (js_get h value "length") ;;
  when (js_lt h len minLength || js_gt h len maxLength)
    (_throwError (VStr ("LengthError: Length should be between "
                        ++ ToString h minLength ++ " and "
                        ++ ToString h maxLength))).

(** The message [checkLength] reports. *)
Definition length_message (minLength maxLength : value) : string :=
  "LengthError: Length should be between " ++ ToString h minLength
  ++ " and " ++ ToString h maxLength.

(** One call of a check, as a client writes it. *)
Inductive call : Type :=
| CheckType (variable type customMessage : value)
| CheckInstance (variable instance customMessage : value)
| CheckArray (variable elementType customMessage : value)
| CheckUnion (variable types customMessage : value)
| CheckObject (variable schema : value)
| CheckDate (variable : value)
| CheckBoolean (variable : value)
| CheckCustom (variable validationFunc customMessage : value)
| CheckNotNaN (variable : value)
| CheckRange (value min max : value)
| CheckLength (value minLength maxLength : value)
| CheckSchemaField (value expectedType : value).

Definition run (c : call) : M state unit :=
  match c with
  | CheckType v t m => checkType v t m
  | CheckInstance v i m => checkInstance v i m
  | CheckArray v t m => checkArray v t m
  | CheckUnion v ts m => checkUnion v ts m
  | CheckObject v s => checkObject v s
  | CheckDate v => checkDate v
  | CheckBoolean v => checkBoolean v
  | CheckCustom v f m => checkCustom v f m
  | CheckNotNaN v => checkNotNaN v
  | CheckRange v lo hi => checkRange v lo hi
  | CheckLength v lo hi => checkLength v lo hi
  | CheckSchemaField v d => _checkSchemaField v d
  end.

End Methods.

(** The checks that report at most one failure and do nothing after it. *)
Definition single_report (c : call) : bool :=
  match c with
  | CheckArray _ _ _ | CheckObject _ _ | CheckSchemaField _ _ => false
  | _ => true
  end.

(** A decision taken without looking at the state, then carried out:
    an exception of the language or of user code, a pass, or one report. *)
Definition decided (h : host) (d : result (option value)) : M state unit :=
  match d with
  | inl e => throw e
  | inr None => ret tt
  | inr (Some message) => _throwError h message
  end.

(** A computation that never looks at [isStrict]: started with another
    value of the flag it gives the same result and leaves the same state,
    up to that flag. *)
Definition strict_blind {A : Type} (c : M state A) : Prop :=
  forall (strict : value) (st : state),
    c (set_isStrict strict st)
    = (fst (c st), set_isStrict strict (snd (c st))).

(** A computation that leaves the state as it found it whenever warn-only
    mode is off. *)
Definition quiet {A : Type} (c : M state A) : Prop :=
  forall st : state, warn_only st = false -> snd (c st) = st.

End Typso.

(* ================================================================== *)
(** * function normalize *)
(* ================================================================== *)

Module Normalize.
Import JS Eff Eff.Notations.

(** The own properties of a plain object. *)
Definition object : Type := list (string * value).

Section WithHost.

Variable h : host.

(** Helper to Normalize Data. [data] is a plain object: its prototype
    chain [chain] never changes and its own properties are the state the
    loop mutates in place; the value returned is that same object.
    [schema] is a value: it shares no object with [data], so an assignment
    to [data] does not change what [schema[key].default] reads.
    [fill_default] is the body of the loop, the arrow function given to
    [forEach]. *)
Definition fill_default (schema : value) (chain : list proto) (key : string)
  : M (list (string * value)) unit :=
  descriptor <- lift (js_get h schema key) ;;
  defaultValue <- lift (js_get h descriptor "default") ;;
  data <- get ;;
  when (is_undefined (obj_get h chain data key)
        && negb (is_undefined defaultValue))
    (modify (assign key defaultValue)).

Definition normalize (schema : value) (chain : list proto)
  : M (list (string * value)) value :=
  keys <- lift (Object_keys h schema) ;;
  forEach keys (fill_default schema chain) ;;
  data <- get ;;
  ret (VObj chain data).

(** [schema[key].default] *)
Definition default_of (schema : value) (key : string) : result value :=
  match js_get h schema key with
  | inl e => inl e
  | inr descriptor => js_get h descriptor "default"
  end.

(** The loop body has nothing left to do for [key] on [data]. *)
Definition settled (schema : value) (chain : list proto) (key : string)
  (data : list (string * value)) : Prop :=
  fill_default schema chain key data = (inr tt, data).

End WithHost.

End Normalize.

(* ================================================================== *)
(** * The adapters: enforceType, withPropTypes, validateRequestBody *)
(* ================================================================== *)

Module Adapters.
Import JS Eff Eff.Notations Typso.

(** [try { c } catch (err) { handler(err) }] *)
Definition try_catch {St A : Type} (c : M St A) (handler : exn -> M St A)
  : M St A :=
  fun s =>
    match c s with
    | (inl err, s') => handler err s'
    | (inr a, s') => (inr a, s')
    end.

(** [items.forEach((item, index) => ...)], counting from [index]. *)
Fixpoint forEach_from {St A : Type} (index : nat) (items : list A)
  (callback : A -> nat -> M St unit) : M St unit :=
  match items with
  | [] => ret tt
  | item :: rest =>
      callback item index ;; forEach_from (S index) rest callback
  end.

(** [v == null]: [v] is [null] or [undefined]. *)
Definition is_nullish (v : value) : bool :=
  match v with
  | VUndefined | VNull => true
  | _ => false
  end.

(** What a JSX expression [<Type {...props} />] evaluates to, as far as
    this file is concerned: the component and the properties handed to it. *)
Record element : Type := {
  el_type : value;
  el_props : list (string * value)
}.

(** What [res.status(code).json(body)] sends. *)
Record reply : Type := {
  status : nat;
  body : value
}.

(** A request being handled: the validator's state, the number of times
    [next] was called, and the replies sent through [res]. *)
Record server : Type := {
  engine : state;
  forwarded : nat;
  sent : list reply
}.

Definition serving (st : state) : server :=
  {| engine := st; forwarded := 0; sent := [] |}.

(** A method of [Typso] run from a request handler. *)
Definition in_engine {A : Type} (c : M state A) : M server A :=
  fun sv =>
    let (r, st) := c (engine sv) in
    (r, {| engine := st; forwarded := forwarded sv; sent := sent sv |}).

(** [res.status(code).json(body)] *)
Definition send (code : nat) (payload : value) : M server unit :=
  modify (fun sv =>
    {| engine := engine sv; forwarded := forwarded sv;
       sent := (sent sv ++ [{| status := code; body := payload |}])%list |}).

Section WithHost.

Variable h : host.

(** The text of a [TypeError] raised by the language. *)
Variable native_message : string.

(** [function enforceType(func, paramTypes, returnType)], applied to
    [args]; [check_argument] is the body of its loop. *)
Definition check_argument (paramTypes arg : value) (index : nat)
  : M state unit :=
  expectedType <- lift (js_get h paramTypes (index_key index)) ;;
  if typeof expectedType =? "string" then
    checkType h arg expectedType VUndefined
  else if is_array_descriptor h expectedType then
    elementType <- lift (js_get h expectedType (index_key 1)) ;;
    checkArray h arg elementType VUndefined
  else
    checkInstance h arg expectedType VUndefined.

Definition enforceType (func paramTypes returnType : value)
  (args : list value) : M state value :=
  forEach_from 0 args (check_argument paramTypes) ;;
  result <- lift (js_call h func VUndefined args) ;;
  (if truthy returnType then
     if typeof returnType =? "string" then
       checkType h result returnType VUndefined
     else
       checkInstance h result returnType VUndefined
   else ret tt) ;;
  ret result.

(** [{...props}]: the own enumerable properties; nothing for [null] and
    [undefined]. *)
Definition spread (props : value) : list (string * value) :=
  match Object_keys h props with
  | inl _ => []
  | inr keys =>
      map (fun key =>
             (key, match js_get h props key with
                   | inr v => v
                   | inl _ => VUndefined
                   end)) keys
  end.

(** React HOC for Prop Types Validation: [withPropTypes(WrappedComponent,
    propTypes, defaultProps)], applied to [props]. [prop_value] is
    [props[key] ?? defaultProps[key]] and [check_prop] the body of the
    loop. *)
Definition prop_value (defaultProps props : value) (key : string)
  : result value :=
  match js_get h props key with
  | inl e => inl e
  | inr given =>
      if is_nullish given then js_get h defaultProps key else inr given
  end.

Definition check_prop (propTypes defaultProps props : value) (key : string)
  : M state unit :=
  expectedType <- lift (js_get h propTypes key) ;;
  propValue <- lift (prop_value defaultProps props key) ;;
  when (is_undefined propValue
        && negb (str_strict_eq "optional" expectedType))
    (_throwError h (VStr ("TypeError: Prop '" ++ key
                          ++ "' is required but missing."))) ;;
  when (negb (is_nullish propValue))
    (_checkSchemaField h propValue expectedType).

Definition withPropTypes (WrappedComponent propTypes defaultProps : value)
  (props : value) : M state element :=
  let defaultProps := default_arg defaultProps (VObj [ObjectProto] []) in
  keys <- lift (Object_keys h propTypes) ;;
  forEach keys (check_prop propTypes defaultProps props) ;;
  ret {| el_type := WrappedComponent; el_props := spread props |}.

(** [err.message] *)
Definition err_message (err : exn) : result value :=
  match err with
  | JsError message => inr (VStr message)
  | NativeTypeError => inr (VStr native_message)
  | Thrown v => js_get h v "message"
  end.

(** [next()]: the call is counted, then the rest of the chain runs. *)
Definition call_next (next : value) : M server unit :=
  match next with
  | VFun fn =>
      modify (fun sv =>
        {| engine := engine sv; forwarded := S (forwarded sv);
           sent := sent sv |}) ;;
      match host_call h fn VUndefined [] with
      | Returns _ => ret tt
      | Throws v => throw (Thrown v)
      end
  | _ => throw NativeTypeError
  end.

(** Validation Middleware for Express (Body/Query Params):
    [validateRequestBody(schema)], applied to a request and [next]; the
    response object is the [sent] part of the state. *)
Definition validateRequestBody (schema : value) (req next : value)
  : M server unit :=
  try_catch
    (payload <- lift (js_get h req "body") ;;
     in_engine (checkObject h payload schema) ;;
     call_next next)
    (fun err =>
       message <- lift (err_message err) ;;
       send 400 (VObj [ObjectProto] [("error", message)])).

End WithHost.

End Adapters.

(* ================================================================== *)
(** * Predicates used to state the properties *)
(* ================================================================== *)

Module Laws.
Import JS Eff Typso.

(** [st'] is [st] with more lines on the console, and the same flags. *)
Definition extends (st st' : state) : Prop :=
  isStrict st' = isStrict st
  /\ logWarnings st' = logWarnings st
  /\ exists added, console st' = (console st ++ added)%list.

(** The result is not an [Error] of the library. *)
Definition no_library_error {A : Type} (r : result A) : Prop :=
  match r with
  | inl e => library_error e = false
  | inr _ => True
  end.

(** A computation that only adds to the console and, in warn-only mode,
    never ends in an [Error] of the library. *)
Definition tame {A : Type} (c : M state A) : Prop :=
  forall st : state,
    extends st (snd (c st))
    /\ (warn_only st = true -> no_library_error (fst (c st))).

(** The run ended in an exception. *)
Definition throws {St A : Type} (r : result A * St) : bool :=
  match fst r with
  | inl _ => true
  | inr _ => false
  end.

(** Every descriptor of the schema is a string, the name of a kind. *)
Definition string_kinds (fields : list (string * value)) : Prop :=
  forall key d, In (key, d) fields -> exists k, d = VStr k.

(** [v] is an object with the prototype [p] in its chain. *)
Definition is_instance (v : value) (p : proto) : bool :=
  match proto_chain v with
  | Some chain => existsb (proto_eqb p) chain
  | None => false
  end.

End Laws.

(* ================================================================== *)
(** * A concrete host for running examples *)
(* ================================================================== *)

Module Sample.
Import JS Eff Typso.

(** [String(v)]; a finite number that is not an integer prints as a
    fraction, which is enough for the examples below (they use integers). *)
Fixpoint show (v : value) : string :=
  match v with
  | VUndefined => "undefined"
  | VNull => "null"
  | VBool true => "true"
  | VBool false => "false"
  | VNum NaN => "NaN"
  | VNum NegInf => "-Infinity"
  | VNum PosInf => "Infinity"
  | VNum (Fin q) =>
      if Pos.eqb (Qden q) 1 then NilZero.string_of_int (Z.to_int (Qnum q))
      else NilZero.string_of_int (Z.to_int (Qnum q)) ++ "/"
           ++ NilZero.string_of_uint (Pos.to_uint (Qden q))
  | VStr s => s
  | VArr items =>
      (fix go (l : list value) : string :=
         match l with
         | [] => ""
         | [x] => match x with VUndefined | VNull => "" | _ => show x end
         | x :: rest =>
             match x with VUndefined | VNull => "" | _ => show x end
             ++ "," ++ go rest
         end) items
  | VObj _ _ => "[object Object]"
  | VFun f => "function " ++ fn_name f ++ "() { [native code] }"
  end.

(** [(v) => typeof v === 'string'] *)
Definition isString : func :=
  {| fn_id := 2; fn_name := "isString"; fn_length := 1; fn_prototype := None |}.

(** [class MyClass {}] *)
Definition MyClass : func :=
  {| fn_id := 3; fn_name := "MyClass"; fn_length := 0;
     fn_prototype := Some (ClassProto 0) |}.

(** [function (callback) { callback(1); callback('a'); }] *)
Definition each : func :=
  {| fn_id := 7; fn_name := "forEach"; fn_length := 1;
     fn_prototype := None |}.

(** A host with one user predicate, [isString], and one user [forEach],
    [each]; every other function returns [undefined]. Nothing is inherited,
    and a string converts to a number only when it is a decimal numeral. *)
Definition sample_host : host :=
  {| host_call := fun f _ args =>
       if Nat.eqb (fn_id f) 2
       then Returns (VBool (typeof (hd VUndefined args) =? "string"))
       else Returns VUndefined;
     host_forEach := fun f _ =>
       if Nat.eqb (fn_id f) 7
       then ([VNum (Fin 1); VStr "a"], Returns VUndefined)
       else ([], Returns VUndefined);
     host_get := fun _ _ => VUndefined;
     host_inherited := fun _ _ => VUndefined;
     host_fn_keys := fun _ => [];
     host_to_string := show;
     host_to_primitive := fun v => PStr (show v);
     host_string_to_number := fun s =>
       match NilZero.uint_of_string s with
       | Some d => num_of_nat (Nat.of_uint d)
       | None => NaN
       end |}.

(** [Typso.enableWarnings(true)] from the initial mode. *)
Definition warning : state := set_logWarnings (VBool true) initial.

Definition num (z : Z) : value := VNum (Fin (inject_Z z)).

Definition plain (props : list (string * value)) : value :=
  VObj [ObjectProto] props.

End Sample.

(** A second host, [sample_host] with three more user functions: [fail]
    throws an object with a message, [greet] returns a string, and
    [proceed], used as [next], returns [undefined]. *)
Module Sample2.
Import JS Eff Typso Sample.

(** [() => { throw {message: 'boom'} }] *)
Definition fail : func :=
  {| fn_id := 4; fn_name := "fail"; fn_length := 0; fn_prototype := None |}.

(** [(name) => 'hello'] *)
Definition greet : func :=
  {| fn_id := 6; fn_name := "greet"; fn_length := 1; fn_prototype := None |}.

(** [() => undefined] *)
Definition proceed : func :=
  {| fn_id := 5; fn_name := "next"; fn_length := 0; fn_prototype := None |}.

Definition boom : value := plain [("message", VStr "boom")].

Definition sample_host2 : host :=
  {| host_call := fun f this args =>
       if Nat.eqb (fn_id f) 4 then Throws boom
       else if Nat.eqb (fn_id f) 6 then Returns (VStr "hello")
       else host_call sample_host f this args;
     host_forEach := host_forEach sample_host;
     host_get := host_get sample_host;
     host_inherited := host_inherited sample_host;
     host_fn_keys := host_fn_keys sample_host;
     host_to_string := host_to_string sample_host;
     host_to_primitive := host_to_primitive sample_host;
     host_string_to_number := host_string_to_number sample_host |}.

(** The schema and the user of the README. *)
Definition userSchema : list (string * value) :=
  [("name", VStr "string"); ("age", VStr "number")].

Definition alice : list (string * value) :=
  [("name", VStr "Alice"); ("age", num 25)].

Definition badAlice : list (string * value) :=
  [("name", num 7); ("age", VStr "25")].

(** The schema with defaults of the README. *)
Definition defaultsSchema : value :=
  plain [("name", plain [("type", VStr "string");
                         ("default", VStr "Anonymous")]);
         ("age", plain [("type", VStr "number"); ("default", num 18)])].

(** A schema whose second descriptor is [null]. *)
Definition brokenSchema : value :=
  plain [("name", plain [("default", VStr "Anonymous")]); ("age", VNull)].

End Sample2.


(* ================================================================== *)
(** * Properties *)
(* ================================================================== *)

Import JS Eff Eff.Notations Typso Normalize.

(** ** The monad *)

Section MonadFacts.

Context {S : Type}.

Lemma bind_ok {A B : Type} (c : M S A) (k : A -> M S B) (s s' : S) (a : A) :
  c s = (inr a, s') -> bind c k s = k a s'.
Proof. unfold bind. intros ->. reflexivity. Qed.

Lemma bind_throws {A B : Type} (c : M S A) (k : A -> M S B) (s s' : S)
  (e : exn) :
  c s = (inl e, s') -> bind c k s = (inl e, s').
Proof. unfold bind. intros ->. reflexivity. Qed.

(** Two callbacks that agree on the elements of the list give the same loop. *)
Lemma forEach_ext_in {A : Type} (l : list A) (f g : A -> M S unit) :
  (forall x, In x l -> forall s, f x s = g x s) ->
  forall s, forEach l f s = forEach l g s.
Proof.
  induction l as [|x l IH]; intros Hfg s; simpl.
  - reflexivity.
  - unfold bind. rewrite (Hfg x (or_introl eq_refl) s).
    destruct (g x s) as [[e|[]] s1]; [reflexivity|].
    apply IH. intros y Hy. apply Hfg. now right.
Qed.

End MonadFacts.

(** ** Plain objects *)

Section Objects.

Variable h : host.

Lemma assoc_assign_same (k : string) (v : value)
  (props : list (string * value)) :
  assoc k (assign k v props) = Some v.
Proof.
  induction props as [|[k' v'] rest IH]; simpl.
  - now rewrite String.eqb_refl.
  - destruct (k =? k') eqn:Hk; simpl.
    + now rewrite String.eqb_refl.
    + now rewrite Hk.
Qed.

Lemma assoc_assign_other (k k' : string) (v : value)
  (props : list (string * value)) :
  k' <> k -> assoc k' (assign k v props) = assoc k' props.
Proof.
  intros Hne. induction props as [|[k0 v0] rest IH]; simpl.
  - now apply String.eqb_neq in Hne as ->.
  - destruct (String.eqb_spec k k0) as [->|Hk0]; simpl.
    + now apply String.eqb_neq in Hne as ->.
    + destruct (k' =? k0); [reflexivity|exact IH].
Qed.

Lemma obj_get_assign_same (chain : list proto) (key : string) (v : value)
  (data : list (string * value)) :
  obj_get h chain (assign key v data) key = v.
Proof. unfold obj_get. now rewrite assoc_assign_same. Qed.

Lemma obj_get_assign_other (chain : list proto) (key key' : string)
  (v : value) (data : list (string * value)) :
  key' <> key ->
  obj_get h chain (assign key v data) key' = obj_get h chain data key'.
Proof. intros Hne. unfold obj_get. now rewrite assoc_assign_other. Qed.

Lemma own_keys_In (props : list (string * value)) (k : string) :
  In k (own_keys props) <-> In k (map fst props).
Proof.
  induction props as [|[k' v] rest IH]; simpl; [reflexivity|].
  rewrite filter_In, IH. split.
  - intros [->|[Hin _]]; auto.
  - intros [->|Hin]; [now left|].
    destruct (String.eqb_spec k k') as [->|Hne]; [now left|right].
    split; [assumption|reflexivity].
Qed.

End Objects.

(** ** Reporting a failure *)

Section Engine.

Variable h : host.

Lemma _throwError_warn (message : value) (st : state) :
  warn_only st = true ->
  _throwError h message st = (inr tt, log message st).
Proof.
  unfold _throwError, bind, get. intros ->. reflexivity.
Qed.

Lemma _throwError_raise (message : value) (st : state) :
  warn_only st = false ->
  _throwError h message st = (inl (new_Error h message), st).
Proof.
  unfold _throwError, bind, get. intros ->. reflexivity.
Qed.

Lemma checkType_match (variable type customMessage : value) (st : state) :
  str_strict_eq (typeof variable) type = true ->
  checkType h variable type customMessage st = (inr tt, st).
Proof. unfold checkType. intros ->. reflexivity. Qed.

Lemma checkType_mismatch (variable type customMessage : value) (st : state) :
  str_strict_eq (typeof variable) type = false ->
  checkType h variable type customMessage st
  = _throwError h (type_message h variable type customMessage) st.
Proof.
  unfold checkType, type_message, or_else. intros ->. simpl.
  destruct (truthy (default_arg customMessage VNull)); reflexivity.
Qed.

Lemma log_neq (message : value) (st : state) : log message st <> st.
Proof.
  destruct st as [s w c]. unfold log. simpl. intros H.
  injection H as H. apply (f_equal (@length value)) in H.
  rewrite length_app in H. simpl in H. lia.
Qed.

(** ** The one-report checks *)

(** The language operations never throw the library's [Error]. *)
Lemma js_get_throws (o : value) (k : string) (e : exn) :
  js_get h o k = inl e -> library_error e = false.
Proof.
  destruct o; simpl;
    repeat match goal with
      | |- context [if ?b then _ else _] => destruct b
      | |- context [match ?x with _ => _ end] => destruct x
      end; intros [= <-] || discriminate; reflexivity.
Qed.

Lemma instanceof_throws (v c : value) (e : exn) :
  instanceof v c = inl e -> library_error e = false.
Proof.
  unfold instanceof.
  repeat match goal with
    | |- context [match ?x with _ => _ end] => destruct x
    end; intros [= <-] || discriminate; reflexivity.
Qed.

Lemma js_call_throws (f this : value) (args : list value) (e : exn) :
  js_call h f this args = inl e -> library_error e = false.
Proof.
  unfold js_call. destruct f; try (intros [= <-]; reflexivity).
  destruct (host_call h f this args); [discriminate|].
  intros [= <-]. reflexivity.
Qed.

Lemma js_invoke_throws (recv : value) (name : string) (args : list value)
  (e : exn) :
  js_invoke h recv name args = inl e -> library_error e = false.
Proof.
  unfold js_invoke. destruct (js_get h recv name) as [e'|f] eqn:Hget.
  - intros [= <-]. now apply (js_get_throws recv name).
  - apply js_call_throws.
Qed.

Lemma js_includes_throws (types : value) (x : string) (e : exn) :
  js_includes h types x = inl e -> library_error e = false.
Proof.
  destruct types; simpl; try discriminate; apply js_invoke_throws.
Qed.

Lemma js_join_throws (types : value) (sep : string) (e : exn) :
  js_join h types sep = inl e -> library_error e = false.
Proof.
  destruct types; simpl; try discriminate; apply js_invoke_throws.
Qed.

(** Each one-report check is a decision that does not depend on the
    state, followed by at most one report. *)
Lemma single_report_decided (c : call) :
  single_report c = true ->
  exists d : result (option value),
    (forall e, d = inl e -> library_error e = false)
    /\ forall st, run h c st = decided h d st.
Proof.
  assert (Hpass : forall op : M state unit,
            (forall st, op st = (inr tt, st)) ->
            exists d : result (option value),
              (forall e, d = inl e -> library_error e = false)
              /\ forall st, op st = decided h d st).
  { intros op Hop. exists (inr None). split; [discriminate|exact Hop]. }
  assert (Hfail : forall (op : M state unit) (message : value),
            (forall st, op st = _throwError h message st) ->
            exists d : result (option value),
              (forall e, d = inl e -> library_error e = false)
              /\ forall st, op st = decided h d st).
  { intros op message Hop. exists (inr (Some message)).
    split; [discriminate|exact Hop]. }
  assert (Hexn : forall (op : M state unit) (e : exn),
            library_error e = false ->
            (forall st, op st = (inl e, st)) ->
            exists d : result (option value),
              (forall e, d = inl e -> library_error e = false)
              /\ forall st, op st = decided h d st).
  { intros op e He Hop. exists (inl e).
    split; [now intros e' [= <-]|exact Hop]. }
  assert (HcheckType : forall v t m,
            exists d : result (option value),
              (forall e, d = inl e -> library_error e = false)
              /\ forall st, checkType h v t m st = decided h d st).
  { intros v t m. destruct (str_strict_eq (typeof v) t) eqn:Hv.
    - apply Hpass. intros st. now apply checkType_match.
    - apply (Hfail _ (type_message h v t m)). intros st.
      now apply checkType_mismatch. }
  intros Hc. destruct c; try discriminate Hc; simpl; clear Hc.
  - apply HcheckType.
  - (* checkInstance *)
    unfold checkInstance. cbv zeta.
    destruct (instanceof variable instance) as [e|[]] eqn:Hi.
    + apply (Hexn _ e); [now apply instanceof_throws in Hi|reflexivity].
    + now apply Hpass.
    + unfold bind, lift, when, or_else. simpl.
      destruct (truthy (default_arg customMessage VNull)).
      * now apply (Hfail _ (default_arg customMessage VNull)).
      * destruct (js_get h instance "name") as [e|name] eqn:Hn.
        -- apply (Hexn _ e); [now apply js_get_throws in Hn|reflexivity].
        -- now apply (Hfail _ (VStr ("TypeError: Expected instance of "
                                     ++ ToString h name))).
  - (* checkUnion *)
    unfold checkUnion. cbv zeta. unfold bind, lift, when, or_else.
    destruct (js_includes h types (typeof variable)) as [e|inc] eqn:Hi.
    + apply (Hexn _ e); [now apply js_includes_throws in Hi|reflexivity].
    + destruct (truthy inc); simpl; [now apply Hpass|].
      destruct (truthy (default_arg customMessage VNull)).
      * now apply (Hfail _ (default_arg customMessage VNull)).
      * destruct (js_join h types ", ") as [e|joined] eqn:Hj.
        -- apply (Hexn _ e); [now apply js_join_throws in Hj|reflexivity].
        -- now apply (Hfail _ (VStr ("TypeError: Expected one of ["
                                     ++ ToString h joined
                                     ++ "] but received "
                                     ++ typeof variable))).
  - (* checkDate *)
    unfold checkDate, bind, lift, when.
    destruct (instanceof variable (VFun Date)) as [e|[]] eqn:Hi.
    + apply (Hexn _ e); [now apply instanceof_throws in Hi|reflexivity].
    + now apply Hpass.
    + now apply (Hfail _ (VStr "TypeError: Expected a Date")).
  - apply HcheckType.
  - (* checkCustom *)
    unfold checkCustom. cbv zeta. unfold bind, lift, when, or_else.
    destruct (js_call h validationFunc VUndefined [variable])
      as [e|verdict] eqn:Hcall.
    + apply (Hexn _ e); [now apply js_call_throws in Hcall|reflexivity].
    + destruct (truthy verdict); simpl; [now apply Hpass|].
      destruct (truthy (default_arg customMessage VNull)).
      * now apply (Hfail _ (default_arg customMessage VNull)).
      * now apply (Hfail _ (VStr "ValidationError: Custom validation failed")).
  - (* checkNotNaN *)
    unfold checkNotNaN, when. destruct (Number_isNaN variable).
    + now apply (Hfail _ (VStr "TypeError: Value should not be NaN")).
    + now apply Hpass.
  - (* checkRange *)
    unfold checkRange, when.
    match goal with
    | |- context [if ?outside then _ else _] => destruct outside
    end.
    + now eapply Hfail.
    + now apply Hpass.
  - (* checkLength *)
    unfold checkLength, bind, lift, when.
    match goal with
    | |- context [js_get h ?v "length"] =>
        destruct (js_get h v "length") as [e|len] eqn:Hlen
    end.
    + apply (Hexn _ e); [now apply js_get_throws in Hlen|reflexivity].
    + destruct (js_lt h len minLength || js_gt h len maxLength).
      * now eapply Hfail.
      * now apply Hpass.
Qed.

(** A check of the one-report kind that fails (throws the library's
    [Error] while warn-only mode is off) logs the message of that error
    and returns normally once warn-only mode is on. *)
Lemma single_report_warn_only (c : call) (st st' : state) (flag : value)
  (m : string) :
  single_report c = true ->
  warn_only st = false ->
  truthy flag = true ->
  run h c st = (inl (JsError m), st') ->
  exists message,
    new_Error h message = JsError m
    /\ run h c (set_logWarnings flag st)
       = (inr tt, log message (set_logWarnings flag st)).
Proof.
  intros Hc Hoff Hflag.
  destruct (single_report_decided c Hc) as (d & Hd & Hrun).
  rewrite !Hrun. destruct d as [e|[message|]]; simpl.
  - intros [= -> _]. now specialize (Hd _ eq_refl).
  - rewrite _throwError_raise by assumption. intros [= Hm _].
    exists message. split; [assumption|]. now apply _throwError_warn.
  - discriminate.
Qed.

(** ** Computations that ignore the strict flag *)

Lemma strict_blind_ret {A : Type} (a : A) : strict_blind (ret a).
Proof. intros b st. reflexivity. Qed.

Lemma strict_blind_lift {A : Type} (r : result A) : strict_blind (lift r).
Proof. intros b st. reflexivity. Qed.

Lemma strict_blind_throw {A : Type} (e : exn) : strict_blind (@throw _ A e).
Proof. intros b st. reflexivity. Qed.

Lemma strict_blind_bind {A B : Type} (c : M state A) (k : A -> M state B) :
  strict_blind c -> (forall a, strict_blind (k a)) -> strict_blind (bind c k).
Proof.
  intros Hc Hk b st. unfold bind. rewrite Hc.
  destruct (c st) as [[e|a] s1]; simpl; [reflexivity|apply Hk].
Qed.

Lemma strict_blind_when (b : bool) (c : M state unit) :
  strict_blind c -> strict_blind (when b c).
Proof. destruct b; simpl; [trivial|intros _; apply strict_blind_ret]. Qed.

Lemma strict_blind_forEach {A : Type} (l : list A) (f : A -> M state unit) :
  (forall x, strict_blind (f x)) -> strict_blind (forEach l f).
Proof.
  intros Hf. induction l as [|x l IH]; simpl.
  - apply strict_blind_ret.
  - apply strict_blind_bind; [apply Hf|intros _; exact IH].
Qed.

Lemma strict_blind_throwError (message : value) :
  strict_blind (_throwError h message).
Proof.
  intros b st. unfold _throwError, bind, get, warn_only. simpl.
  destruct (truthy (logWarnings st)); reflexivity.
Qed.

Lemma strict_blind_or_else (a : value) (c : M state value) :
  strict_blind c -> strict_blind (or_else a c).
Proof.
  unfold or_else. destruct (truthy a); [intros _; apply strict_blind_ret|trivial].
Qed.

Create HintDb blind.
Create HintDb quiet.

#[local] Hint Resolve strict_blind_ret strict_blind_lift strict_blind_throw
  strict_blind_bind strict_blind_when strict_blind_forEach
  strict_blind_throwError strict_blind_or_else : blind.

Lemma strict_blind_checkType v t m : strict_blind (checkType h v t m).
Proof. unfold checkType. cbv zeta. auto 8 with blind. Qed.

#[local] Hint Resolve strict_blind_checkType : blind.

Lemma strict_blind_checkInstance v i m : strict_blind (checkInstance h v i m).
Proof. unfold checkInstance. cbv zeta. auto 10 with blind. Qed.

Lemma strict_blind_js_forEach v (callback : value -> M state unit) :
  (forall item, strict_blind (callback item)) ->
  strict_blind (js_forEach h v callback).
Proof.
  intros Hcb.
  assert (Hother : strict_blind
    (method <- lift (js_get h v "forEach") ;;
     match method with
     | VFun fn =>
         forEach (fst (host_forEach h fn v)) callback ;;
         match snd (host_forEach h fn v) with
         | Returns _ => ret tt
         | Throws thrown => throw (Thrown thrown)
         end
     | _ => throw NativeTypeError
     end)).
  { apply strict_blind_bind; [auto with blind|intros method].
    destruct method; auto with blind.
    apply strict_blind_bind; [auto with blind|intros _].
    destruct (snd (host_forEach h f v)); auto with blind. }
  destruct v; try exact Hother. simpl. auto with blind.
Qed.

Lemma strict_blind_checkArray v t m : strict_blind (checkArray h v t m).
Proof.
  unfold checkArray. cbv zeta.
  apply strict_blind_bind; [auto with blind|intros _].
  apply strict_blind_js_forEach. auto with blind.
Qed.

Lemma strict_blind_checkUnion v ts m : strict_blind (checkUnion h v ts m).
Proof. unfold checkUnion. cbv zeta. auto 10 with blind. Qed.

Lemma strict_blind_checkCustom v f m : strict_blind (checkCustom h v f m).
Proof. unfold checkCustom. cbv zeta. auto 10 with blind. Qed.

#[local] Hint Resolve strict_blind_checkInstance strict_blind_checkArray
  strict_blind_checkUnion strict_blind_checkCustom : blind.

Lemma strict_blind_checkSchemaField v d : strict_blind (_checkSchemaField h v d).
Proof.
  unfold _checkSchemaField.
  destruct (typeof d =? "string"); [auto with blind|].
  destruct (is_array_descriptor h d); [auto 6 with blind|].
  destruct (typeof d =? "function"); auto with blind.
Qed.

#[local] Hint Resolve strict_blind_checkSchemaField : blind.

Lemma strict_blind_run (c : call) : strict_blind (run h c).
Proof.
  destruct c; simpl; auto with blind.
  - unfold checkObject. auto 12 with blind.
  - unfold checkDate. auto 8 with blind.
  - unfold checkBoolean. auto with blind.
  - unfold checkNotNaN. auto with blind.
  - unfold checkRange. auto with blind.
  - unfold checkLength. auto 8 with blind.
Qed.

(** C9. No check reads [isStrict]: two runs of the same call from states
    that differ only in that flag end with the same result (normal return
    or the same exception), the same console and the same warn-only flag;
    the strict flag itself is carried through untouched. *)
Theorem strict_flag_not_enforced (c : call) (strict1 strict2 : value)
  (st : state) :
  let run1 := run h c (set_isStrict strict1 st) in
  let run2 := run h c (set_isStrict strict2 st) in
  fst run1 = fst run2
  /\ console (snd run1) = console (snd run2)
  /\ logWarnings (snd run1) = logWarnings (snd run2)
  /\ isStrict (snd run1) = strict1
  /\ isStrict (snd run2) = strict2.
Proof.
  cbv zeta. rewrite !strict_blind_run. simpl. repeat split.
Qed.

(** ** Computations that keep the state while warn-only mode is off *)

Lemma quiet_ret {A : Type} (a : A) : quiet (ret a).
Proof. intros st _. reflexivity. Qed.

Lemma quiet_lift {A : Type} (r : result A) : quiet (lift r).
Proof. intros st _. reflexivity. Qed.

Lemma quiet_bind {A B : Type} (c : M state A) (k : A -> M state B) :
  quiet c -> (forall a, quiet (k a)) -> quiet (bind c k).
Proof.
  intros Hc Hk st Hst. unfold bind. specialize (Hc st Hst).
  destruct (c st) as [[e|a] s1]; simpl in *; [assumption|].
  subst s1. now apply Hk.
Qed.

Lemma quiet_when (b : bool) (c : M state unit) : quiet c -> quiet (when b c).
Proof. destruct b; simpl; [trivial|intros _; apply quiet_ret]. Qed.

Lemma quiet_forEach {A : Type} (l : list A) (f : A -> M state unit) :
  (forall x, quiet (f x)) -> quiet (forEach l f).
Proof.
  intros Hf. induction l as [|x l IH]; simpl.
  - apply quiet_ret.
  - apply quiet_bind; [apply Hf|intros _; exact IH].
Qed.

Lemma quiet_throwError (message : value) : quiet (_throwError h message).
Proof. intros st Hst. now rewrite _throwError_raise. Qed.

Lemma quiet_or_else (a : value) (c : M state value) :
  quiet c -> quiet (or_else a c).
Proof.
  unfold or_else. destruct (truthy a); [intros _; apply quiet_ret|trivial].
Qed.

#[local] Hint Resolve quiet_ret quiet_lift quiet_bind quiet_when
  quiet_forEach quiet_throwError quiet_or_else : quiet.

Lemma quiet_checkType v t m : quiet (checkType h v t m).
Proof. unfold checkType. cbv zeta. auto 8 with quiet. Qed.

#[local] Hint Resolve quiet_checkType : quiet.

Lemma quiet_throw {A : Type} (e : exn) : quiet (@throw _ A e).
Proof. intros st _. reflexivity. Qed.

Lemma quiet_js_forEach v (callback : value -> M state unit) :
  (forall item, quiet (callback item)) -> quiet (js_forEach h v callback).
Proof.
  intros Hcb.
  assert (Hother : quiet
    (method <- lift (js_get h v "forEach") ;;
     match method with
     | VFun fn =>
         forEach (fst (host_forEach h fn v)) callback ;;
         match snd (host_forEach h fn v) with
         | Returns _ => ret tt
         | Throws thrown => throw (Thrown thrown)
         end
     | _ => throw NativeTypeError
     end)).
  { apply quiet_bind; [auto with quiet|intros method].
    destruct method; try apply quiet_throw.
    apply quiet_bind; [auto with quiet|intros _].
    destruct (snd (host_forEach h f v)); [apply quiet_ret|apply quiet_throw]. }
  destruct v; try exact Hother. simpl. auto with quiet.
Qed.

Lemma quiet_checkArray v t m : quiet (checkArray h v t m).
Proof.
  unfold checkArray. cbv zeta.
  apply quiet_bind; [auto with quiet|intros _].
  apply quiet_js_forEach. auto with quiet.
Qed.

Lemma quiet_checkSchemaField v d : quiet (_checkSchemaField h v d).
Proof.
  unfold _checkSchemaField.
  destruct (typeof d =? "string"); [auto with quiet|].
  destruct (is_array_descriptor h d).
  { apply quiet_bind; [auto with quiet|intros e; apply quiet_checkArray]. }
  destruct (typeof d =? "function").
  - unfold checkCustom. cbv zeta. auto 10 with quiet.
  - unfold checkInstance. cbv zeta. auto 10 with quiet.
Qed.

(** While warn-only mode is off, a loop of quiet checks returns normally
    exactly when each of its checks does, taken alone. *)
Lemma forEach_ok_iff {A : Type} (l : list A) (f : A -> M state unit)
  (st : state) :
  (forall x, quiet (f x)) ->
  warn_only st = false ->
  fst (forEach l f st) = inr tt
  <-> (forall x, In x l -> fst (f x st) = inr tt).
Proof.
  intros Hq Hst. induction l as [|x l IH]; simpl.
  - split; [intros _ y []|reflexivity].
  - unfold bind. pose proof (Hq x st Hst) as Hx.
    destruct (f x st) as [[e|[]] s1] eqn:Hfx; simpl in *.
    + split; [discriminate|].
      intros Hall. specialize (Hall x (or_introl eq_refl)).
      rewrite Hfx in Hall. exact Hall.
    + subst s1. rewrite IH. split.
      * intros Hall y [<-|Hy]; [now rewrite Hfx|now apply Hall].
      * intros Hall y Hy. apply Hall. now right.
Qed.

(** ** checkObject *)

Lemma checkObject_plain (chain sc : list proto)
  (props fields : list (string * value)) (st : state) :
  checkObject h (VObj chain props) (VObj sc fields) st
  = forEach (own_keys fields)
      (fun key => _checkSchemaField h (obj_get h chain props key)
                    (obj_get h sc fields key)) st.
Proof. reflexivity. Qed.

(** C2. For a schema [S] and a plain object [O], with warn-only mode off,
    [checkObject(O, S)] returns normally exactly when, for every key
    declared in [S], the field check of [O[key]] against [S[key]] returns
    normally; and the call depends on [O] only through the values at the
    keys [S] declares, so that a property of [O] under a key [S] does not
    declare changes nothing and cannot make the call fail. *)
Theorem checkObject_succeeds_iff (chain sc : list proto)
  (props fields : list (string * value)) (st : state) :
  warn_only st = false ->
  (fst (checkObject h (VObj chain props) (VObj sc fields) st) = inr tt
   <-> forall key, In key (map fst fields) ->
         fst (_checkSchemaField h (obj_get h chain props key)
                (obj_get h sc fields key) st) = inr tt)
  /\ (forall chain' props',
        (forall key, In key (map fst fields) ->
           obj_get h chain' props' key = obj_get h chain props key) ->
        checkObject h (VObj chain' props') (VObj sc fields) st
        = checkObject h (VObj chain props) (VObj sc fields) st)
  /\ (forall extra v,
        ~ In extra (map fst fields) ->
        checkObject h (VObj chain (assign extra v props)) (VObj sc fields) st
        = checkObject h (VObj chain props) (VObj sc fields) st).
Proof.
  intros Hst.
  assert (Hdep : forall chain' props',
        (forall key, In key (map fst fields) ->
           obj_get h chain' props' key = obj_get h chain props key) ->
        checkObject h (VObj chain' props') (VObj sc fields) st
        = checkObject h (VObj chain props) (VObj sc fields) st).
  { intros chain' props' Hsame. rewrite !checkObject_plain.
    apply forEach_ext_in. intros key Hkey s.
    apply own_keys_In in Hkey. now rewrite Hsame. }
  split; [|split; [exact Hdep|]].
  2:{ intros extra v Hextra. apply Hdep. intros key Hkey.
      apply obj_get_assign_other. intros ->. contradiction. }
  rewrite checkObject_plain.
  rewrite forEach_ok_iff
    by (assumption || intros key; apply quiet_checkSchemaField).
  split; intros Hall key Hkey; apply Hall.
  - now apply own_keys_In.
  - now apply own_keys_In in Hkey.
Qed.

(** C3, at the input where the code departs from it. [typeof null] is
    "object", so the guard of [checkObject] lets [null] through: with a
    schema that declares a key the call ends in the language's own
    [TypeError] on reading [null[key]], and with an empty schema it returns
    normally. No "Expected an object" failure is reported in either mode. *)
Theorem checkObject_null_not_rejected (sc : list proto) (key : string)
  (descriptor : value) (fields : list (string * value)) (st : state) :
  checkObject h VNull (VObj sc ((key, descriptor) :: fields)) st
  = (inl NativeTypeError, st)
  /\ checkObject h VNull (VObj sc []) st = (inr tt, st).
Proof. split; reflexivity. Qed.

(** Every other value that is not a plain object is rejected: while
    warn-only mode is off the call throws "Expected an object" before the
    schema is looked at. *)
Lemma checkObject_not_an_object (v schema : value) (st : state) :
  warn_only st = false ->
  v <> VNull ->
  (forall chain props, v <> VObj chain props) ->
  checkObject h v schema st
  = (inl (JsError "TypeError: Expected an object"), st).
Proof.
  intros Hst Hnull Hobj. unfold checkObject.
  destruct v; try congruence; simpl;
    try (unfold bind; rewrite _throwError_raise by assumption; reflexivity).
Qed.

(** ** checkArray *)

Lemma checkType_default_arg (v t m : value) :
  checkType h v t (default_arg m VNull) = checkType h v t m.
Proof. destruct m; reflexivity. Qed.

Lemma checkArray_array (items : list value) (k m : value) (st : state) :
  checkArray h (VArr items) k m st
  = forEach items (fun item => checkType h item k m) st.
Proof.
  unfold checkArray. cbv zeta. simpl.
  apply forEach_ext_in. intros x _ s. now rewrite checkType_default_arg.
Qed.

Lemma warn_only_log_all (messages : list value) (st : state) :
  warn_only (log_all messages st) = warn_only st.
Proof. reflexivity. Qed.

Lemma log_all_nil (st : state) : log_all [] st = st.
Proof. destruct st. unfold log_all. simpl. now rewrite app_nil_r. Qed.

Lemma log_all_cons (m : value) (ms : list value) (st : state) :
  log_all ms (log m st) = log_all (m :: ms) st.
Proof. unfold log_all, log. simpl. now rewrite <- app_assoc. Qed.

(** While warn-only mode is off the loop stops at the first mismatch. *)
Lemma forEach_checkType_raise (items : list value) (k m : value) (st : state) :
  warn_only st = false ->
  forEach items (fun item => checkType h item k m) st
  = match find (mismatch k) items with
    | None => (inr tt, st)
    | Some bad => (inl (new_Error h (type_message h bad k m)), st)
    end.
Proof.
  intros Hst. induction items as [|x items IH]; simpl; [reflexivity|].
  unfold mismatch at 1.
  destruct (str_strict_eq (typeof x) k) eqn:Hx; simpl.
  - erewrite bind_ok by (now apply checkType_match). exact IH.
  - erewrite bind_throws; [reflexivity|].
    rewrite checkType_mismatch by assumption.
    now apply _throwError_raise.
Qed.

(** In warn-only mode the loop visits every element and logs one message
    for each mismatch, in order. *)
Lemma forEach_checkType_warn (items : list value) (k m : value) (st : state) :
  warn_only st = true ->
  forEach items (fun item => checkType h item k m) st
  = (inr tt,
     log_all (map (fun item => type_message h item k m)
                  (filter (mismatch k) items)) st).
Proof.
  revert st. induction items as [|x items IH]; intros st Hst; simpl.
  - now rewrite log_all_nil.
  - unfold mismatch at 1.
    destruct (str_strict_eq (typeof x) k) eqn:Hx; simpl.
    + erewrite bind_ok by (now apply checkType_match). now apply IH.
    + erewrite bind_ok
        by (rewrite checkType_mismatch by assumption;
            now apply _throwError_warn).
      rewrite IH by exact Hst. now rewrite log_all_cons.
Qed.

Lemma js_forEach_other (v : value) (callback : value -> M state unit) :
  Array_isArray v = false ->
  js_forEach h v callback
  = (method <- lift (js_get h v "forEach") ;;
     match method with
     | VFun fn =>
         forEach (fst (host_forEach h fn v)) callback ;;
         match snd (host_forEach h fn v) with
         | Returns _ => ret tt
         | Throws thrown => throw (Thrown thrown)
         end
     | _ => throw NativeTypeError
     end).
Proof. destruct v; try discriminate; reflexivity. Qed.

(** In warn-only mode a [forEach] that is not the one of arrays has its
    items checked like the elements of an array. *)
Lemma js_forEach_warn (v k m : value) (st : state) :
  Array_isArray v = false ->
  warn_only st = true ->
  js_forEach h v (fun item => checkType h item k m) st
  = (forEach_outcome h v,
     log_all (map (fun item => type_message h item k m)
                  (filter (mismatch k) (handed_over h v))) st).
Proof.
  intros Hv Hon. rewrite js_forEach_other by assumption.
  unfold forEach_outcome, handed_over, bind at 1, lift.
  destruct (js_get h v "forEach") as [e|method]; simpl.
  { now rewrite log_all_nil. }
  destruct method; try (unfold throw; now rewrite log_all_nil).
  unfold bind. rewrite forEach_checkType_warn by assumption.
  destruct (snd (host_forEach h f v)); reflexivity.
Qed.

(** C4. [checkArray(v, k)]: when [v] is not an array the "Expected an
    array" failure is reported, thrown while warn-only mode is off and logged
    when it is on; in warn-only mode the call then goes on to [v.forEach],
    and whatever items that hands over are checked and logged like
    elements. When [v] is an array the call is the loop of
    [checkType(item, k)] over its elements in order; while warn-only mode is
    off it stops with the error of the first mismatching element (and
    returns normally when there is none); in warn-only mode it returns
    normally after logging the message of every mismatching element. *)
Theorem checkArray_spec (v k customMessage : value) (st : state) :
  (Array_isArray v = false ->
     (warn_only st = false ->
        checkArray h v k customMessage st
        = (inl (JsError "TypeError: Expected an array"), st))
     /\ (warn_only st = true ->
           checkArray h v k customMessage st
           = (forEach_outcome h v,
              log_all
                (VStr "TypeError: Expected an array"
                 :: map (fun item => type_message h item k customMessage)
                      (filter (mismatch k) (handed_over h v))) st)))
  /\ (forall items, v = VArr items ->
        checkArray h v k customMessage st
        = forEach items (fun item => checkType h item k customMessage) st
        /\ (warn_only st = false ->
              checkArray h v k customMessage st
              = match find (mismatch k) items with
                | None => (inr tt, st)
                | Some bad =>
                    (inl (new_Error h (type_message h bad k customMessage)),
                     st)
                end)
        /\ (warn_only st = true ->
              checkArray h v k customMessage st
              = (inr tt,
                 log_all (map (fun item => type_message h item k customMessage)
                              (filter (mismatch k) items)) st))).
Proof.
  split.
  - intros Hv. split; intros Hst; unfold checkArray; cbv zeta;
      rewrite Hv; simpl.
    + erewrite bind_throws; [reflexivity|]. now apply _throwError_raise.
    + erewrite bind_ok by (now apply _throwError_warn).
      rewrite js_forEach_warn by assumption.
      rewrite log_all_cons. f_equal. f_equal. f_equal.
      apply map_ext. intros item. unfold type_message.
      now destruct customMessage.
  - intros items ->. rewrite checkArray_array. repeat split.
    + now apply forEach_checkType_raise.
    + now apply forEach_checkType_warn.
Qed.

(** C1, at the input where the code departs from it. [checkArray(null,
    "string")] fails the check: while warn-only mode is off it throws
    "Expected an array". After [enableWarnings(true)] the same call logs that
    message and then goes on to [null.forEach], so it does not return
    normally: it ends in the language's own [TypeError]. *)
Theorem checkArray_null_warn_only_throws (k customMessage strict : value)
  (entries : list value) :
  let off := {| isStrict := strict; logWarnings := VBool false;
                console := entries |} in
  let on := {| isStrict := strict; logWarnings := VBool true;
               console := entries |} in
  checkArray h VNull k customMessage off
  = (inl (JsError "TypeError: Expected an array"), off)
  /\ (enableWarnings (VBool true) ;; checkArray h VNull k customMessage) off
     = (inl NativeTypeError, log (VStr "TypeError: Expected an array") on).
Proof. split; reflexivity. Qed.

(** ** checkType *)

(** C6. [checkType(v, k)] returns with nothing reported exactly when
    [typeof v] is the string [k], in either mode. Otherwise, while warn-only
    mode is off, it does not return: it throws an [Error], and when no
    custom message is given the message is
    "TypeError: Expected k but received (typeof v)". *)
Theorem checkType_typeof (v : value) (k : string) (customMessage : value)
  (st : state) :
  (checkType h v (VStr k) customMessage st = (inr tt, st) <-> typeof v = k)
  /\ (warn_only st = false ->
      (fst (checkType h v (VStr k) customMessage st) = inr tt
       <-> typeof v = k)
      /\ (typeof v <> k ->
          checkType h v (VStr k) customMessage st
          = (inl (new_Error h (type_message h v (VStr k) customMessage)), st))
      /\ (typeof v <> k ->
          truthy customMessage = false ->
          checkType h v (VStr k) customMessage st
          = (inl (JsError ("TypeError: Expected " ++ k ++ " but received "
                           ++ typeof v)), st))).
Proof.
  assert (Hok : typeof v = k ->
      checkType h v (VStr k) customMessage st = (inr tt, st)).
  { intros He. apply checkType_match. simpl. now apply String.eqb_eq. }
  assert (Hreport : typeof v <> k ->
      checkType h v (VStr k) customMessage st
      = _throwError h (type_message h v (VStr k) customMessage) st).
  { intros Hne. apply checkType_mismatch. simpl. now apply String.eqb_neq. }
  split.
  - split; [|exact Hok].
    intros Hrun. destruct (string_dec (typeof v) k) as [|Hne]; [assumption|].
    exfalso. rewrite (Hreport Hne) in Hrun.
    destruct (warn_only st) eqn:Hmode.
    + rewrite _throwError_warn in Hrun by assumption.
      injection Hrun as Hrun. now apply log_neq in Hrun.
    + rewrite _throwError_raise in Hrun by assumption. discriminate.
  - intros Hmode.
    assert (Hraise : typeof v <> k ->
      checkType h v (VStr k) customMessage st
      = (inl (new_Error h (type_message h v (VStr k) customMessage)), st)).
    { intros Hne. rewrite (Hreport Hne). now apply _throwError_raise. }
    split; [|split].
    + split; [|intros He; now rewrite (Hok He)].
      intros Hrun.
      destruct (string_dec (typeof v) k) as [|Hne]; [assumption|].
      rewrite (Hraise Hne) in Hrun. discriminate.
    + exact Hraise.
    + intros Hne Hmsg. rewrite (Hraise Hne). unfold type_message.
      replace (truthy (default_arg customMessage VNull)) with false
        by (destruct customMessage; simpl in *; congruence).
      reflexivity.
Qed.

(** ** The setters *)

(** C10. [enableWarnings()] without an argument stores [false]: whatever
    the mode before, warn-only mode is off afterwards and the next failure
    is thrown, not logged. *)
Theorem enableWarnings_no_argument (st : state) :
  enableWarnings VUndefined st = (inr tt, set_logWarnings (VBool false) st)
  /\ logWarnings (snd (enableWarnings VUndefined st)) = VBool false
  /\ warn_only (snd (enableWarnings VUndefined st)) = false
  /\ forall message,
       (enableWarnings VUndefined ;; _throwError h message) st
       = (inl (new_Error h message), set_logWarnings (VBool false) st).
Proof.
  repeat split.
Qed.

(** ** Dispatch on the shape of a descriptor *)

(** C5. [_checkSchemaField] routes by shape: a string goes to
    [checkType]; an array whose first element is the string "array" goes to
    [checkArray] with the element at index 1; a function goes to
    [checkCustom], whatever [prototype] it has, and is never handed to
    [checkInstance]; every other descriptor goes to [checkInstance]. *)
Theorem checkSchemaField_dispatch (value : value) :
  (forall s, _checkSchemaField h value (VStr s)
             = checkType h value (VStr s) VUndefined)
  /\ (forall second rest,
        _checkSchemaField h value (VArr (VStr "array" :: second :: rest))
        = checkArray h value second VUndefined)
  /\ (_checkSchemaField h value (VArr [VStr "array"])
      = checkArray h value (host_get h (VArr [VStr "array"]) "1") VUndefined)
  /\ (forall f, _checkSchemaField h value (VFun f)
                = checkCustom h value (VFun f) VUndefined)
  /\ (forall d, typeof d <> "string" ->
                is_array_descriptor h d = false ->
                typeof d <> "function" ->
                _checkSchemaField h value d
                = checkInstance h value d VUndefined).
Proof.
  repeat split.
  intros d Hs Ha Hf. unfold _checkSchemaField. rewrite Ha.
  apply String.eqb_neq in Hs. apply String.eqb_neq in Hf.
  rewrite Hs, Hf. reflexivity.
Qed.

(** ** checkLength *)

Lemma Qlt_bool_iff (x y : Q) : Qlt_bool x y = true <-> (x < y)%Q.
Proof.
  unfold Qlt_bool. rewrite negb_true_iff. split.
  - intros Hle. apply Qnot_le_lt. intros Hyx.
    apply Qle_bool_iff in Hyx. congruence.
  - intros Hlt. destruct (Qle_bool y x) eqn:Hle; [|reflexivity].
    apply Qle_bool_iff in Hle. exfalso. now apply (Qlt_not_le x y).
Qed.

Lemma Qlt_bool_false_iff (x y : Q) : Qlt_bool x y = false <-> (y <= x)%Q.
Proof.
  unfold Qlt_bool. rewrite negb_false_iff. apply Qle_bool_iff.
Qed.

Lemma num_lt_NaN_r (a : number) : num_lt a NaN = false.
Proof. destruct a; reflexivity. Qed.

Lemma js_lt_undefined_l (b : value) : js_lt h VUndefined b = false.
Proof. reflexivity. Qed.

Lemma js_lt_undefined_r (a : value) : js_lt h a VUndefined = false.
Proof.
  unfold js_lt. simpl.
  destruct (ToPrimitive h a); simpl; auto using num_lt_NaN_r.
Qed.

Lemma js_get_length (v : value) (n : nat) :
  length_of v = Some n ->
  js_get h v "length" = inr (VNum (num_of_nat n)).
Proof.
  destruct v; simpl; try discriminate; intros [= <-]; reflexivity.
Qed.

Lemma num_lt_below (a b : number) : num_lt a b = true <-> below a b.
Proof.
  destruct a, b; simpl; try apply Qlt_bool_iff;
    try (split; [discriminate|intros []]);
    split; trivial.
Qed.

Lemma checkLength_compare (v len lo hi : value) (st : state) :
  js_get h v "length" = inr len ->
  checkLength h v lo hi st
  = if js_lt h len lo || js_gt h len hi
    then _throwError h (VStr (length_message h lo hi)) st
    else (inr tt, st).
Proof.
  intros Hlen. unfold checkLength.
  erewrite bind_ok by (unfold lift; now rewrite Hlen).
  destruct (js_lt h len lo || js_gt h len hi); reflexivity.
Qed.

(** C7, as the code has it. [checkLength] reads [v.length] and reports
    when it compares below [minLength] or above [maxLength], in either mode.
    When the length is a number, as it is for every string and every array,
    and the bounds are numbers, infinite ones included, that is exactly when
    the length lies outside [minLength, maxLength], both ends included; the
    report is the "LengthError", thrown while warn-only mode is off and
    logged when it is on. A value without a length makes the call throw only
    when it is [null] or [undefined], and then it is the language's
    [TypeError]; for any other value whose [length] reads [undefined] both
    comparisons are false and the call returns normally, reporting nothing,
    whatever the bounds. *)
Theorem checkLength_spec (v : value) (st : state) :
  (forall n, length_of v = Some n ->
             js_get h v "length" = inr (VNum (Fin (inject_Z (Z.of_nat n)))))
  /\ (forall len lo hi : value,
        js_get h v "length" = inr len ->
        checkLength h v lo hi st
        = if js_lt h len lo || js_gt h len hi
          then _throwError h (VStr (length_message h lo hi)) st
          else (inr tt, st))
  /\ (forall len lo hi : number,
        js_get h v "length" = inr (VNum len) ->
        (below len lo \/ below hi len ->
           checkLength h v (VNum lo) (VNum hi) st
           = _throwError h (VStr (length_message h (VNum lo) (VNum hi))) st
           /\ (warn_only st = false ->
               checkLength h v (VNum lo) (VNum hi) st
               = (inl (JsError (length_message h (VNum lo) (VNum hi))), st))
           /\ (warn_only st = true ->
               checkLength h v (VNum lo) (VNum hi) st
               = (inr tt,
                  log (VStr (length_message h (VNum lo) (VNum hi))) st)))
        /\ (~ (below len lo \/ below hi len) ->
             checkLength h v (VNum lo) (VNum hi) st = (inr tt, st)))
  /\ (v = VNull \/ v = VUndefined ->
      forall lo hi, checkLength h v lo hi st = (inl NativeTypeError, st))
  /\ (js_get h v "length" = inr VUndefined ->
      forall lo hi, checkLength h v lo hi st = (inr tt, st)).
Proof.
  split; [|split; [|split; [|split]]].
  - intros n Hn. now apply js_get_length.
  - intros len lo hi Hlen. now apply checkLength_compare.
  - intros len lo hi Hlen.
    rewrite (checkLength_compare v (VNum len) (VNum lo) (VNum hi) st Hlen).
    change (js_lt h (VNum len) (VNum lo)) with (num_lt len lo).
    change (js_gt h (VNum len) (VNum hi)) with (num_lt hi len).
    split.
    + intros Hout.
      replace (num_lt len lo || num_lt hi len) with true.
      * split; [reflexivity|]. split; intros Hmode.
        -- now rewrite _throwError_raise.
        -- now rewrite _throwError_warn.
      * symmetry. apply orb_true_iff.
        destruct Hout; [left|right]; now apply num_lt_below.
    + intros Hin.
      replace (num_lt len lo || num_lt hi len) with false; [reflexivity|].
      symmetry. apply orb_false_iff.
      split; apply not_true_is_false; intros Hlt; apply Hin;
        [left|right]; now apply num_lt_below.
  - intros [->| ->] lo hi; reflexivity.
  - intros Hget lo hi.
    rewrite (checkLength_compare v VUndefined lo hi st Hget).
    unfold js_gt. now rewrite js_lt_undefined_l, js_lt_undefined_r.
Qed.

End Engine.

(** ** normalize *)


Section NormalizeFacts.

Variable h : host.
Variable schema : value.
Variable chain : list proto.

(** The loop body, spelled out: it throws when [schema[key].default]
    cannot be read, and otherwise assigns the default when there is one and
    [data[key]] is [undefined]. *)
Lemma fill_default_eq (key : string) (data : object) :
  fill_default h schema chain key data
  = match default_of h schema key with
    | inl e => (inl e, data)
    | inr defaultValue =>
        (inr tt,
         if is_undefined (obj_get h chain data key)
            && negb (is_undefined defaultValue)
         then assign key defaultValue data
         else data)
    end.
Proof.
  unfold fill_default, default_of, bind, lift, get, when, modify, ret.
  destruct (js_get h schema key) as [e|d]; [reflexivity|].
  destruct (js_get h d "default") as [e|dv]; [reflexivity|].
  destruct (is_undefined (obj_get h chain data key) && negb (is_undefined dv));
    reflexivity.
Qed.


(** A key is settled exactly when its default can be read and the
    condition of the [if] is false. *)
Lemma settled_iff (key : string) (data : object) :
  settled h schema chain key data
  <-> exists defaultValue,
        default_of h schema key = inr defaultValue
        /\ is_undefined (obj_get h chain data key)
           && negb (is_undefined defaultValue) = false.
Proof.
  unfold settled. rewrite fill_default_eq.
  destruct (default_of h schema key) as [e|dv].
  - split; [discriminate|intros (dv & [=] & _)].
  - destruct (is_undefined (obj_get h chain data key)
              && negb (is_undefined dv)) eqn:Hcond.
    + split; [|intros (dv' & [= <-] & Hc); congruence].
      intros [= Hsame]. exfalso.
      apply andb_true_iff in Hcond as [Hcur Hdv].
      assert (Hget : obj_get h chain data key = dv).
      { rewrite <- Hsame. apply obj_get_assign_same. }
      rewrite Hget in Hcur. rewrite Hcur in Hdv. discriminate.
    + split; [intros _; now exists dv|reflexivity].
Qed.

(** Once the body has run for a key, it has nothing left to do for it. *)
Lemma settled_after (key : string) (data data' : object) :
  fill_default h schema chain key data = (inr tt, data') ->
  settled h schema chain key data'.
Proof.
  rewrite fill_default_eq, settled_iff.
  destruct (default_of h schema key) as [e|dv]; [discriminate|].
  intros [= <-]. exists dv. split; [reflexivity|].
  destruct (is_undefined (obj_get h chain data key)) eqn:Hcur;
    destruct (is_undefined dv) eqn:Hdv; simpl.
  - apply andb_false_r.
  - now rewrite obj_get_assign_same, Hdv.
  - now rewrite Hcur.
  - now rewrite Hcur.
Qed.

(** Running the body for one key does not unsettle another. *)
Lemma settled_preserved (key key' : string) (data data' : object) :
  settled h schema chain key data ->
  fill_default h schema chain key' data = (inr tt, data') ->
  settled h schema chain key data'.
Proof.
  intros Hset Hrun.
  destruct (string_dec key key') as [->|Hne];
    [now apply (settled_after key' data)|].
  revert Hset Hrun. rewrite !settled_iff, fill_default_eq.
  destruct (default_of h schema key') as [e'|dv']; [discriminate|].
  intros (dv & Hdv & Hcond) [= <-]. exists dv. split; [assumption|].
  destruct (is_undefined (obj_get h chain data key')
            && negb (is_undefined dv')); [|assumption].
  now rewrite obj_get_assign_other.
Qed.

(** A loop that returns normally leaves all of its keys settled, and
    keeps settled whatever was. *)
Lemma forEach_settles (keys : list string) (data data' : object) :
  forEach keys (fill_default h schema chain) data = (inr tt, data') ->
  (forall key, In key keys -> settled h schema chain key data')
  /\ (forall key, settled h schema chain key data ->
                  settled h schema chain key data').
Proof.
  revert data. induction keys as [|k keys IH]; intros data; simpl.
  - intros [= <-]. split; [intros key []|trivial].
  - unfold bind.
    destruct (fill_default h schema chain k data) as [[e|[]] d1] eqn:Hk;
      [discriminate|].
    intros Hrest. destruct (IH d1 Hrest) as [Hin Hkeep]. split.
    + intros key [<-|Hkey]; [|now apply Hin].
      apply Hkeep. now apply (settled_after k data).
    + intros key Hset. apply Hkeep. now apply (settled_preserved key k data).
Qed.

Lemma forEach_settled (keys : list string) (data : object) :
  (forall key, In key keys -> settled h schema chain key data) ->
  forEach keys (fill_default h schema chain) data = (inr tt, data).
Proof.
  induction keys as [|k keys IH]; intros Hall; simpl; [reflexivity|].
  erewrite bind_ok by (apply Hall; now left).
  apply IH. intros key Hkey. apply Hall. now right.
Qed.

(** C8. Normalizing twice is normalizing once. [normalize] returns the
    object it was given, so the second call works on what the first one
    left: if the first call returns, the second returns the same object
    with the same properties; and as a whole, [normalize(S, normalize(S, O))]
    has the outcome of [normalize(S, O)], also when that is an exception. *)
Theorem normalize_idempotent (data : object) :
  (forall (r : value) (data1 : object),
     normalize h schema chain data = (inr r, data1) ->
     r = VObj chain data1
     /\ normalize h schema chain data1 = (inr r, data1))
  /\ (normalize h schema chain ;; normalize h schema chain) data
     = normalize h schema chain data.
Proof.
  assert (Hfirst : forall r data1,
     normalize h schema chain data = (inr r, data1) ->
     r = VObj chain data1
     /\ normalize h schema chain data1 = (inr r, data1)).
  { intros r data1. unfold normalize, bind at 1 2, lift.
    destruct (Object_keys h schema) as [e|keys]; [discriminate|].
    unfold bind at 1.
    destruct (forEach keys (fill_default h schema chain) data)
      as [[e|[]] d1] eqn:Hloop; [discriminate|].
    unfold bind, get, ret. intros [= <- <-]. split; [reflexivity|].
    rewrite forEach_settled; [reflexivity|].
    now apply (forEach_settles keys data). }
  split; [exact Hfirst|].
  unfold bind at 1.
  destruct (normalize h schema chain data) as [[e|r] data1] eqn:Hrun;
    [reflexivity|].
  now apply Hfirst.
Qed.

End NormalizeFacts.

(* ================================================================== *)
(** * The theorems at concrete inputs *)
(* ================================================================== *)

Import Sample.

(** [checkType(123, 'string')] with warn-only mode off. *)
Lemma checkType_typeof_witness :
  warn_only initial = false
  /\ truthy VUndefined = false
  /\ typeof (num 123) <> "string"
  /\ checkType sample_host (num 123) (VStr "string") VUndefined initial
     = (inl (JsError "TypeError: Expected string but received number"),
        initial).
Proof.
  assert (Hne : typeof (num 123) <> "string") by discriminate.
  split; [reflexivity|]. split; [reflexivity|]. split; [exact Hne|].
  exact (proj2 (proj2 (proj2 (checkType_typeof sample_host (num 123) "string"
                                VUndefined initial) eq_refl))
           Hne eq_refl).
Defined.

(** A user with an extra field against [{name: 'string', age: 'number'}]. *)
Lemma checkObject_succeeds_iff_witness :
  warn_only initial = false
  /\ fst (checkObject sample_host
            (plain [("name", VStr "Alice"); ("age", num 25);
                    ("email", VStr "a@b.c")])
            (plain [("name", VStr "string"); ("age", VStr "number")])
            initial) = inr tt.
Proof.
  split; [reflexivity|].
  apply (proj2 (proj1 (checkObject_succeeds_iff sample_host
                         [ObjectProto] [ObjectProto]
                         [("name", VStr "Alice"); ("age", num 25);
                          ("email", VStr "a@b.c")]
                         [("name", VStr "string"); ("age", VStr "number")]
                         initial eq_refl))).
  intros key [<-|[<-|[]]]; reflexivity.
Defined.

(** [checkArray([1, '2', true], 'number')]: the string at index 1 is the
    first mismatch; in warn-only mode both mismatches are logged. *)
Lemma checkArray_spec_witness :
  warn_only initial = false
  /\ warn_only warning = true
  /\ checkArray sample_host (VArr [num 1; VStr "2"; VBool true])
       (VStr "number") VUndefined initial
     = (inl (JsError "TypeError: Expected number but received string"),
        initial)
  /\ checkArray sample_host (VArr [num 1; VStr "2"; VBool true])
       (VStr "number") VUndefined warning
     = (inr tt,
        log_all [VStr "TypeError: Expected number but received string";
                 VStr "TypeError: Expected number but received boolean"]
                warning)
  /\ checkArray sample_host (VStr "abc") (VStr "number") VUndefined initial
     = (inl (JsError "TypeError: Expected an array"), initial)
  /\ checkArray sample_host (plain [("forEach", VFun each)]) (VStr "number")
       VUndefined warning
     = (inr tt,
        log_all [VStr "TypeError: Expected an array";
                 VStr "TypeError: Expected number but received string"]
                warning).
Proof.
  split; [reflexivity|]. split; [reflexivity|].
  pose proof (checkArray_spec sample_host (VArr [num 1; VStr "2"; VBool true])
                (VStr "number") VUndefined initial) as [_ Hoff].
  pose proof (checkArray_spec sample_host (VArr [num 1; VStr "2"; VBool true])
                (VStr "number") VUndefined warning) as [_ Hon].
  pose proof (checkArray_spec sample_host (VStr "abc")
                (VStr "number") VUndefined initial) as [Hnot _].
  destruct (Hoff _ eq_refl) as (_ & Hraise & _).
  destruct (Hon _ eq_refl) as (_ & _ & Hwarn).
  pose proof (checkArray_spec sample_host (plain [("forEach", VFun each)])
                (VStr "number") VUndefined warning) as [Hown _].
  split; [exact (Hraise eq_refl)|].
  split; [exact (Hwarn eq_refl)|].
  split; [exact (proj1 (Hnot eq_refl) eq_refl)|].
  exact (proj2 (Hown eq_refl) eq_refl).
Defined.

(** A number as descriptor is neither a string, nor an array, nor a
    function: it is handed to [checkInstance]. *)
Lemma checkSchemaField_dispatch_witness :
  typeof (num 3) <> "string"
  /\ is_array_descriptor sample_host (num 3) = false
  /\ typeof (num 3) <> "function"
  /\ _checkSchemaField sample_host (VStr "x") (num 3)
     = checkInstance sample_host (VStr "x") (num 3) VUndefined.
Proof.
  assert (Hs : typeof (num 3) <> "string") by discriminate.
  assert (Hf : typeof (num 3) <> "function") by discriminate.
  split; [exact Hs|]. split; [reflexivity|]. split; [exact Hf|].
  exact (proj2 (proj2 (proj2 (proj2
           (checkSchemaField_dispatch sample_host (VStr "x")))))
           (num 3) Hs eq_refl Hf).
Defined.

(** [checkLength('hello', 1, 10)] and [checkLength('too long string', 1, 10)]. *)
Lemma checkLength_spec_witness :
  length_of (VStr "hello") = Some 5
  /\ length_of (VStr "too long string") = Some 15
  /\ warn_only initial = false
  /\ warn_only warning = true
  /\ checkLength sample_host (VStr "hello") (num 1) (num 10) initial
     = (inr tt, initial)
  /\ checkLength sample_host (VStr "hello") (num 1) (VNum PosInf) warning
     = (inr tt, warning)
  /\ checkLength sample_host (VStr "too long string") (num 1) (num 10) initial
     = (inl (JsError "LengthError: Length should be between 1 and 10"),
        initial)
  /\ checkLength sample_host (VStr "too long string") (num 1) (num 10) warning
     = (inr tt,
        log (VStr "LengthError: Length should be between 1 and 10") warning)
  /\ checkLength sample_host VNull (num 1) (num 10) initial
     = (inl NativeTypeError, initial)
  /\ checkLength sample_host (VBool true) (num 1) (num 10) initial
     = (inr tt, initial).
Proof.
  split; [reflexivity|]. split; [reflexivity|]. split; [reflexivity|].
  split; [reflexivity|].
  pose proof (checkLength_spec sample_host (VStr "hello") initial)
    as (Hlen5 & _ & Hin & _ & _).
  pose proof (checkLength_spec sample_host (VStr "hello") warning)
    as (_ & _ & Hinf & _ & _).
  pose proof (checkLength_spec sample_host (VStr "too long string") initial)
    as (Hlen15 & _ & Hout & _ & _).
  pose proof (checkLength_spec sample_host (VStr "too long string") warning)
    as (_ & _ & Hlog & _ & _).
  pose proof (checkLength_spec sample_host VNull initial)
    as (_ & _ & _ & Hnull & _).
  pose proof (checkLength_spec sample_host (VBool true) initial)
    as (_ & _ & _ & _ & Hnone).
  split; [|split; [|split; [|split; [|split]]]].
  - apply (proj2 (Hin _ (Fin (inject_Z 1)) (Fin (inject_Z 10))
                    (Hlen5 5 eq_refl))).
    intros [H|H]; unfold below, Qlt in H; simpl in H; lia.
  - apply (proj2 (Hinf _ (Fin (inject_Z 1)) PosInf (Hlen5 5 eq_refl))).
    intros [H|H]; [unfold below, Qlt in H; simpl in H; lia|exact H].
  - apply (proj1 (Hout _ (Fin (inject_Z 1)) (Fin (inject_Z 10))
                    (Hlen15 15 eq_refl))); [|reflexivity].
    right. unfold below, Qlt. simpl. lia.
  - apply (proj1 (Hlog _ (Fin (inject_Z 1)) (Fin (inject_Z 10))
                    (Hlen15 15 eq_refl))); [|reflexivity].
    right. unfold below, Qlt. simpl. lia.
  - apply Hnull. now left.
  - apply Hnone. reflexivity.
Defined.

(** C7, as stated, fails: a number is neither a sequence nor a string and
    has no [length], yet [checkLength(42, 1, 10)] returns normally. *)
Lemma checkLength_no_length_returns :
  Array_isArray (num 42) = false
  /\ typeof (num 42) = "number"
  /\ js_get sample_host (num 42) "length" = inr VUndefined
  /\ checkLength sample_host (num 42) (num 1) (num 10) initial
     = (inr tt, initial).
Proof. repeat split. Qed.

(** The README example of [normalize], run a second time. *)
Lemma normalize_idempotent_witness :
  let schema :=
    plain [("name", plain [("type", VStr "string");
                           ("default", VStr "Anonymous")]);
           ("age", plain [("type", VStr "number"); ("default", num 18)])] in
  let filled :=
    [("email", VStr "user@example.com"); ("name", VStr "Anonymous");
     ("age", num 18)] in
  normalize sample_host schema [ObjectProto]
    [("email", VStr "user@example.com")]
  = (inr (plain filled), filled)
  /\ normalize sample_host schema [ObjectProto] filled
     = (inr (plain filled), filled).
Proof.
  cbv zeta. split; [reflexivity|].
  apply (proj1 (normalize_idempotent sample_host _ [ObjectProto]
                  [("email", VStr "user@example.com")])).
  reflexivity.
Defined.

(** A class given as a descriptor is called as a predicate, not used for
    an instance check: an instance of [MyClass] passes [checkInstance] but
    fails the schema field check, because calling [MyClass] on the sample
    host returns [undefined]. *)
Example class_descriptor_is_called :
  let instance := VObj [ClassProto 0; ObjectProto] [] in
  checkInstance sample_host instance (VFun MyClass) VUndefined initial
  = (inr tt, initial)
  /\ _checkSchemaField sample_host instance (VFun MyClass) initial
     = (inl (JsError "ValidationError: Custom validation failed"), initial).
Proof. split; reflexivity. Qed.

(* ================================================================== *)
(** * Further properties of the engine *)
(* ================================================================== *)

Import Laws Adapters.

(** ** What no check does *)

Section Invariants.

Variable h : host.

Lemma extends_refl (st : state) : extends st st.
Proof.
  repeat split. exists []. now rewrite app_nil_r.
Qed.

Lemma extends_trans (st1 st2 st3 : state) :
  extends st1 st2 -> extends st2 st3 -> extends st1 st3.
Proof.
  intros (Hs & Hw & a & Ha) (Hs' & Hw' & b & Hb). repeat split.
  - congruence.
  - congruence.
  - exists (a ++ b)%list. now rewrite Hb, Ha, app_assoc.
Qed.

Lemma extends_warn_only (st st' : state) :
  extends st st' -> warn_only st' = warn_only st.
Proof. intros (_ & Hw & _). unfold warn_only. now rewrite Hw. Qed.

Lemma tame_ret {A : Type} (a : A) : tame (ret a).
Proof. intros st. split; [apply extends_refl|intros _; exact I]. Qed.

Lemma tame_lift {A : Type} (r : result A) :
  no_library_error r -> tame (lift r).
Proof. intros Hr st. split; [apply extends_refl|intros _; exact Hr]. Qed.

Lemma tame_bind {A B : Type} (c : M state A) (k : A -> M state B) :
  tame c -> (forall a, tame (k a)) -> tame (bind c k).
Proof.
  intros Hc Hk st. destruct (Hc st) as [Hext Herr]. unfold bind.
  destruct (c st) as [[e|a] s1]; simpl in *; [now split|].
  destruct (Hk a s1) as [Hext' Herr']. split.
  - now apply (extends_trans st s1).
  - intros Hw. apply Herr'. now rewrite (extends_warn_only st s1).
Qed.

Lemma tame_when (b : bool) (c : M state unit) : tame c -> tame (when b c).
Proof. destruct b; simpl; [trivial|intros _; apply tame_ret]. Qed.

Lemma tame_forEach {A : Type} (l : list A) (f : A -> M state unit) :
  (forall x, tame (f x)) -> tame (forEach l f).
Proof.
  intros Hf. induction l as [|x l IH]; simpl.
  - apply tame_ret.
  - apply tame_bind; [apply Hf|intros _; exact IH].
Qed.

Lemma tame_throwError (message : value) : tame (_throwError h message).
Proof.
  intros st. destruct (warn_only st) eqn:Hw.
  - rewrite _throwError_warn by assumption. split; [|intros _; exact I].
    repeat split. now exists [message].
  - rewrite _throwError_raise by assumption.
    split; [apply extends_refl|discriminate].
Qed.

Lemma tame_or_else (a : value) (c : M state value) :
  tame c -> tame (or_else a c).
Proof.
  unfold or_else. destruct (truthy a); [intros _; apply tame_ret|trivial].
Qed.

Lemma no_library_error_intro {A : Type} (r : result A) :
  (forall e, r = inl e -> library_error e = false) -> no_library_error r.
Proof. destruct r as [e|a]; simpl; [intros H; now apply H|trivial]. Qed.

Lemma tame_js_get (o : value) (k : string) : tame (lift (js_get h o k)).
Proof.
  apply tame_lift, no_library_error_intro. apply js_get_throws.
Qed.

Create HintDb tame.

#[local] Hint Resolve tame_ret tame_bind tame_when tame_forEach
  tame_throwError tame_or_else tame_js_get : tame.

Lemma tame_checkType v t m : tame (checkType h v t m).
Proof. unfold checkType. cbv zeta. auto 8 with tame. Qed.

Lemma tame_checkInstance v i m : tame (checkInstance h v i m).
Proof.
  unfold checkInstance. cbv zeta. apply tame_bind; [|auto 8 with tame].
  apply tame_lift, no_library_error_intro. apply instanceof_throws.
Qed.

Lemma tame_checkArray v t m : tame (checkArray h v t m).
Proof.
  unfold checkArray. cbv zeta.
  apply tame_bind; [auto with tame|intros _].
  pose proof tame_checkType as Hcb.
  assert (Hthrow : forall e, library_error e = false ->
                             tame (@throw state unit e)).
  { intros e He st. split; [apply extends_refl|intros _; exact He]. }
  assert (Hother : tame
    (method <- lift (js_get h v "forEach") ;;
     match method with
     | VFun fn =>
         forEach (fst (host_forEach h fn v))
           (fun item => checkType h item t (default_arg m VNull)) ;;
         match snd (host_forEach h fn v) with
         | Returns _ => ret tt
         | Throws thrown => throw (Thrown thrown)
         end
     | _ => throw NativeTypeError
     end)).
  { apply tame_bind; [auto with tame|intros method].
    destruct method; try (now apply Hthrow).
    apply tame_bind; [auto with tame|intros _].
    destruct (snd (host_forEach h f v)); [apply tame_ret|now apply Hthrow]. }
  destruct v; try exact Hother. simpl. auto with tame.
Qed.

Lemma tame_checkUnion v ts m : tame (checkUnion h v ts m).
Proof.
  unfold checkUnion. cbv zeta. apply tame_bind.
  - apply tame_lift, no_library_error_intro, js_includes_throws.
  - intros inc. apply tame_when, tame_bind; [|auto with tame].
    apply tame_or_else, tame_bind; [|auto with tame].
    apply tame_lift, no_library_error_intro, js_join_throws.
Qed.

Lemma tame_checkCustom v f m : tame (checkCustom h v f m).
Proof.
  unfold checkCustom. cbv zeta. apply tame_bind; [|auto 8 with tame].
  apply tame_lift, no_library_error_intro, js_call_throws.
Qed.

#[local] Hint Resolve tame_checkType tame_checkInstance tame_checkArray
  tame_checkUnion tame_checkCustom : tame.

Lemma tame_checkSchemaField v d : tame (_checkSchemaField h v d).
Proof.
  unfold _checkSchemaField.
  destruct (typeof d =? "string"); [auto with tame|].
  destruct (is_array_descriptor h d); [auto 6 with tame|].
  destruct (typeof d =? "function"); auto with tame.
Qed.

#[local] Hint Resolve tame_checkSchemaField : tame.

Lemma tame_run (c : call) : tame (run h c).
Proof.
  destruct c; simpl; auto with tame.
  - unfold checkObject. apply tame_bind; [auto with tame|intros _].
    apply tame_bind; [|auto 8 with tame].
    apply tame_lift. destruct schema; simpl; trivial.
  - unfold checkDate. apply tame_bind; [|auto with tame].
    apply tame_lift, no_library_error_intro, instanceof_throws.
  - unfold checkBoolean. auto with tame.
  - unfold checkNotNaN. auto with tame.
  - unfold checkRange. auto with tame.
  - unfold checkLength. auto 8 with tame.
Qed.

(** X1. No check touches the mode: after any call of any check, in either
    mode and however it ends, [isStrict] and [logWarnings] are what they
    were, and the console is the old console followed by what the call
    logged. *)
Theorem checks_keep_the_mode (c : call) (st : state) :
  isStrict (snd (run h c st)) = isStrict st
  /\ logWarnings (snd (run h c st)) = logWarnings st
  /\ exists added, console (snd (run h c st)) = (console st ++ added)%list.
Proof. exact (proj1 (tame_run c st)). Qed.

(** X2. In warn-only mode no check throws an [Error] of the library:
    whatever a call throws is the language's [TypeError] or a value thrown
    by user code. *)
Theorem warn_only_never_raises (c : call) (st : state) (m : string) :
  warn_only st = true ->
  fst (run h c st) <> inl (JsError m).
Proof.
  intros Hw Hrun. pose proof (proj2 (tame_run c st) Hw) as Hno.
  rewrite Hrun in Hno. discriminate.
Qed.

Create HintDb still.

#[local] Hint Resolve quiet_ret quiet_lift quiet_bind quiet_when
  quiet_forEach quiet_throwError quiet_or_else quiet_checkType
  quiet_checkArray quiet_checkSchemaField : still.

Lemma quiet_run (c : call) : quiet (run h c).
Proof.
  destruct c; simpl; auto with still.
  - unfold checkInstance. cbv zeta. auto 10 with still.
  - unfold checkUnion. cbv zeta. auto 10 with still.
  - unfold checkObject. auto 12 with still.
  - unfold checkDate. auto 8 with still.
  - unfold checkBoolean. auto with still.
  - unfold checkCustom. cbv zeta. auto 10 with still.
  - unfold checkNotNaN. auto with still.
  - unfold checkRange. auto with still.
  - unfold checkLength. auto 8 with still.
Qed.

(** X3. While warn-only mode is off a check has no effect besides its
    outcome: whether it returns or throws, the flags and the console are
    exactly as before the call. *)
Theorem default_mode_leaves_no_trace (c : call) (st : state) :
  warn_only st = false ->
  snd (run h c st) = st.
Proof. intros Hoff. now apply quiet_run. Qed.

End Invariants.

(** ** The single checks *)

Section SingleChecks.

Variable h : host.

Lemma not_function (d : value) :
  typeof d <> "function" -> forall v, instanceof v d = inl NativeTypeError.
Proof. destruct d; simpl; intros Hd v; try reflexivity. now elim Hd. Qed.

(** X4. In a schema, a descriptor that is neither a string, nor an
    ["array", kind] pair, nor a function cannot be satisfied: the field
    check hands it to [instanceof] as right operand, and the call ends in
    the language's [TypeError] for every value, in either mode, with nothing
    logged. This is what happens to the [{type, default}] objects of a
    [normalize] schema. *)
Theorem schema_object_descriptor_throws (v d : value) (st : state) :
  typeof d <> "string" ->
  is_array_descriptor h d = false ->
  typeof d <> "function" ->
  _checkSchemaField h v d st = (inl NativeTypeError, st).
Proof.
  intros Hs Ha Hf. unfold _checkSchemaField. rewrite Ha.
  apply String.eqb_neq in Hs as ->.
  pose proof (not_function d Hf v) as Hi.
  apply String.eqb_neq in Hf as ->.
  unfold checkInstance, bind, lift. now rewrite Hi.
Qed.

(** X5. [checkInstance(v, C)] for a constructor [C] with a [prototype]:
    while warn-only mode is off and no custom message is given, the call
    returns normally when [v] is an object with [C.prototype] in its chain,
    and otherwise, in particular for every primitive [v], throws
    "TypeError: Expected instance of (C.name)". *)
Theorem checkInstance_constructor (v : value) (f : func) (p : proto)
  (customMessage : value) (st : state) :
  fn_prototype f = Some p ->
  warn_only st = false ->
  truthy customMessage = false ->
  checkInstance h v (VFun f) customMessage st
  = if is_instance v p then (inr tt, st)
    else (inl (JsError ("TypeError: Expected instance of " ++ fn_name f)),
          st).
Proof.
  intros Hp Hoff Hmsg. unfold checkInstance, is_instance, instanceof.
  cbv zeta. rewrite Hp.
  assert (Hcm : truthy (default_arg customMessage VNull) = false)
    by (destruct customMessage; simpl in *; congruence).
  destruct (proto_chain v) as [chain|];
    [destruct (existsb (proto_eqb p) chain)|]; simpl; try reflexivity;
    unfold bind, lift, or_else; simpl; rewrite Hcm; simpl;
    now rewrite _throwError_raise.
Qed.

(** X6. [checkDate(v)] is [checkInstance(v, Date, "TypeError: Expected a
    Date")], in either mode; so a primitive, be it a timestamp or a date
    string, is never accepted as a date. *)
Theorem checkDate_is_instance_check (v : value) (st : state) :
  checkDate h v st
  = checkInstance h v (VFun Date) (VStr "TypeError: Expected a Date") st
  /\ (proto_chain v = None ->
      checkDate h v st
      = _throwError h (VStr "TypeError: Expected a Date") st).
Proof.
  unfold checkDate, checkInstance, instanceof. cbv zeta. simpl.
  destruct (proto_chain v) as [chain|]; simpl.
  - split; [|discriminate].
    unfold bind, lift. destruct (existsb (proto_eqb DateProto) chain);
      reflexivity.
  - split; [reflexivity|]. reflexivity.
Qed.

Lemma existsb_str_strict_eq (x : string) (items : list value) :
  existsb (str_strict_eq x) items = true <-> In (VStr x) items.
Proof.
  rewrite existsb_exists. split.
  - intros (v & Hin & Hv). destruct v; try discriminate.
    simpl in Hv. apply String.eqb_eq in Hv. now subst.
  - intros Hin. exists (VStr x). split; [assumption|].
    simpl. apply String.eqb_refl.
Qed.

Lemma report_not_silent (message : value) (st : state) :
  _throwError h message st <> (inr tt, st).
Proof.
  destruct (warn_only st) eqn:Hw.
  - rewrite _throwError_warn by assumption. intros [= Hlog].
    now apply log_neq in Hlog.
  - now rewrite _throwError_raise.
Qed.

(** X7. [checkUnion(v, kinds)] for an array [kinds]: the call returns
    with nothing reported exactly when the string [typeof v] is an element
    of [kinds], in either mode, so neither the order of the kinds nor
    duplicates matter; when it is not, warn-only mode is off and no custom
    message is given, the error lists all the kinds, joined by ", ". *)
Theorem checkUnion_membership (v : value) (kinds : list value)
  (customMessage : value) (st : state) :
  (checkUnion h v (VArr kinds) customMessage st = (inr tt, st)
   <-> In (VStr (typeof v)) kinds)
  /\ (~ In (VStr (typeof v)) kinds ->
      warn_only st = false ->
      truthy customMessage = false ->
      checkUnion h v (VArr kinds) customMessage st
      = (inl (JsError ("TypeError: Expected one of ["
                       ++ join_items h ", " kinds
                       ++ "] but received " ++ typeof v)), st)).
Proof.
  unfold checkUnion. cbv zeta. unfold bind, lift. simpl.
  destruct (existsb (str_strict_eq (typeof v)) kinds) eqn:Hin; simpl.
  - apply existsb_str_strict_eq in Hin. split; [tauto|contradiction].
  - assert (Hnot : ~ In (VStr (typeof v)) kinds).
    { intros Hyes. apply existsb_str_strict_eq in Hyes. congruence. }
    split.
    + split; [|contradiction]. intros Hrun. exfalso. revert Hrun.
      unfold or_else, ret.
      destruct (truthy (default_arg customMessage VNull));
        apply report_not_silent.
    + intros _ Hoff Hmsg. unfold or_else.
      replace (truthy (default_arg customMessage VNull)) with false
        by (destruct customMessage; simpl in *; congruence).
      simpl. now rewrite _throwError_raise.
Qed.

(** X8. [checkUnion(v, kinds)] when [kinds] is a string instead of an
    array: [includes] is then the substring test of strings, and the call
    returns with nothing reported exactly when [typeof v] occurs inside
    [kinds], in either mode. *)
Theorem checkUnion_string_kinds (v : value) (kinds : string)
  (customMessage : value) (st : state) :
  checkUnion h v (VStr kinds) customMessage st = (inr tt, st)
  <-> str_includes kinds (typeof v) = true.
Proof.
  unfold checkUnion. cbv zeta. unfold bind, lift. simpl.
  destruct (str_includes kinds (typeof v)); simpl; [tauto|].
  split; [|discriminate]. intros Hrun. exfalso. revert Hrun.
  unfold or_else, ret, bind, lift.
  destruct (truthy (default_arg customMessage VNull));
    [apply report_not_silent|].
  destruct (js_invoke h (VStr kinds) "join" [VStr ", "]);
    [discriminate|apply report_not_silent].
Qed.

(** X9. An exception of the predicate passes through [checkCustom]
    unchanged, in either mode: it is neither wrapped nor logged; and a
    validator that is not a function makes the call end in the language's
    [TypeError]. *)
Theorem checkCustom_exceptions (v validationFunc customMessage : value)
  (st : state) :
  (forall f thrown,
     validationFunc = VFun f ->
     host_call h f VUndefined [v] = Throws thrown ->
     checkCustom h v validationFunc customMessage st
     = (inl (Thrown thrown), st))
  /\ (typeof validationFunc <> "function" ->
      checkCustom h v validationFunc customMessage st
      = (inl NativeTypeError, st)).
Proof.
  split.
  - intros f thrown -> Hcall. unfold checkCustom, bind, lift. simpl.
    now rewrite Hcall.
  - intros Hf. unfold checkCustom, bind, lift.
    destruct validationFunc; try reflexivity. now elim Hf.
Qed.

(** X10. [checkCustom] judges the predicate's result by truthiness, not
    by [=== true]: when the predicate returns [r], the call returns with
    nothing reported exactly when [r] is truthy; when [r] is falsy, warn-only
    mode is off and no custom message is given, it throws
    "ValidationError: Custom validation failed". *)
Theorem checkCustom_truthiness (v : value) (f : func) (r customMessage : value)
  (st : state) :
  host_call h f VUndefined [v] = Returns r ->
  (checkCustom h v (VFun f) customMessage st = (inr tt, st)
   <-> truthy r = true)
  /\ (truthy r = false ->
      warn_only st = false ->
      truthy customMessage = false ->
      checkCustom h v (VFun f) customMessage st
      = (inl (JsError "ValidationError: Custom validation failed"), st)).
Proof.
  intros Hcall. unfold checkCustom. cbv zeta. unfold bind, lift. simpl.
  rewrite Hcall. destruct (truthy r); simpl.
  - split; [tauto|discriminate].
  - split.
    + split; [|discriminate]. intros Hrun. exfalso. revert Hrun.
      unfold or_else, ret.
      destruct (truthy (default_arg customMessage VNull));
        apply report_not_silent.
    + intros _ Hoff Hmsg. unfold or_else.
      replace (truthy (default_arg customMessage VNull)) with false
        by (destruct customMessage; simpl in *; congruence).
      simpl. now rewrite _throwError_raise.
Qed.

(** X11. [checkNotNaN] reports the number [NaN] and nothing else: a value
    that is not a number, such as a string that does not parse or
    [undefined], is never flagged, in either mode. *)
Theorem checkNotNaN_only_NaN (v : value) (st : state) :
  (checkNotNaN h v st = (inr tt, st) <-> v <> VNum NaN)
  /\ (typeof v <> "number" -> checkNotNaN h v st = (inr tt, st))
  /\ (warn_only st = false ->
      checkNotNaN h (VNum NaN) st
      = (inl (JsError "TypeError: Value should not be NaN"), st)).
Proof.
  split; [|split].
  - unfold checkNotNaN.
    destruct v as [| |b|[| |q|]|s|items|chain props|f]; simpl;
      try (split; [discriminate|reflexivity]).
    split; [|congruence]. intros Hrun. exfalso. revert Hrun.
    apply report_not_silent.
  - intros Hn. destruct v; try reflexivity. now elim Hn.
  - intros Hoff. unfold checkNotNaN. simpl. now rewrite _throwError_raise.
Qed.

(** X12. [checkRange] on finite numbers, while warn-only mode is off:
    the call throws "RangeError" exactly when the value is below [min] or
    above [max]; both bounds are accepted. *)
Theorem checkRange_inclusive (x lo hi : Q) (st : state) :
  warn_only st = false ->
  ((x < lo \/ hi < x)%Q ->
     checkRange h (VNum (Fin x)) (VNum (Fin lo)) (VNum (Fin hi)) st
     = (inl (JsError ("RangeError: Value should be between "
                      ++ ToString h (VNum (Fin lo)) ++ " and "
                      ++ ToString h (VNum (Fin hi)))), st))
  /\ ((lo <= x /\ x <= hi)%Q ->
      checkRange h (VNum (Fin x)) (VNum (Fin lo)) (VNum (Fin hi)) st
      = (inr tt, st)).
Proof.
  intros Hoff. unfold checkRange.
  change (js_lt h (VNum (Fin x)) (VNum (Fin lo))) with (Qlt_bool x lo).
  change (js_gt h (VNum (Fin x)) (VNum (Fin hi))) with (Qlt_bool hi x).
  split.
  - intros Hout. replace (Qlt_bool x lo || Qlt_bool hi x) with true.
    + simpl. now apply _throwError_raise.
    + symmetry. apply orb_true_iff.
      destruct Hout; [left|right]; now apply Qlt_bool_iff.
  - intros [Hlo Hhi].
    replace (Qlt_bool x lo || Qlt_bool hi x) with false; [reflexivity|].
    symmetry. apply orb_false_iff. split; now apply Qlt_bool_false_iff.
Qed.

(** X13. [checkRange] never rejects [NaN] or [undefined]: every
    comparison with them is false, so the call returns with nothing
    reported whatever the bounds, in either mode. *)
Theorem checkRange_accepts_NaN (v lo hi : value) (st : state) :
  v = VNum NaN \/ v = VUndefined ->
  checkRange h v lo hi st = (inr tt, st).
Proof.
  assert (Hl : forall b, js_lt h (VNum NaN) b = false) by reflexivity.
  assert (Hr : forall a, js_lt h a (VNum NaN) = false).
  { intros a. unfold js_lt. simpl.
    destruct (ToPrimitive h a); simpl; auto using num_lt_NaN_r. }
  intros [->| ->]; unfold checkRange, js_gt.
  - now rewrite Hl, Hr.
  - now rewrite js_lt_undefined_l, js_lt_undefined_r.
Qed.

End SingleChecks.

(** ** checkObject, field by field *)

Section Fields.

Variable h : host.

(** While warn-only mode is off a loop of quiet checks ends with the
    outcome of the first of its checks that throws. *)
Lemma forEach_first_throw {A : Type} (l : list A) (f : A -> M state unit)
  (st : state) :
  (forall x, quiet (f x)) ->
  warn_only st = false ->
  forEach l f st
  = match find (fun x => throws (f x st)) l with
    | Some x => f x st
    | None => (inr tt, st)
    end.
Proof.
  intros Hq Hoff. induction l as [|x l IH]; simpl; [reflexivity|].
  unfold bind, throws at 1. pose proof (Hq x st Hoff) as Hx.
  destruct (f x st) as [[e|[]] s1] eqn:Hfx; simpl in *;
    [now rewrite ?Hfx|].
  subst s1. exact IH.
Qed.

Lemma assoc_In (key : string) (props : list (string * value)) (d : value) :
  assoc key props = Some d -> In (key, d) props.
Proof.
  induction props as [|[k v] rest IH]; simpl; [discriminate|].
  destruct (String.eqb_spec key k) as [->|Hne].
  - intros [= ->]. now left.
  - intros Hd. right. now apply IH.
Qed.

Lemma assoc_declared (key : string) (props : list (string * value)) :
  In key (map fst props) -> exists d, assoc key props = Some d.
Proof.
  induction props as [|[k v] rest IH]; simpl; [intros []|].
  destruct (String.eqb_spec key k) as [->|Hne].
  - intros _. now exists v.
  - intros [Hk|Hin]; [congruence|now apply IH].
Qed.

(** X14. [checkObject] reports the first failing field in the order of
    the schema's keys: for a plain object and a plain schema, while warn-only
    mode is off, the call ends exactly as the field check of the first
    declared key whose check throws, and returns normally when there is none.
    Fields after that key are not examined. *)
Theorem checkObject_first_failure (chain sc : list proto)
  (props fields : list (string * value)) (st : state) :
  warn_only st = false ->
  let field_check key :=
    _checkSchemaField h (obj_get h chain props key)
      (obj_get h sc fields key) in
  checkObject h (VObj chain props) (VObj sc fields) st
  = match find (fun key => throws (field_check key st)) (own_keys fields) with
    | Some key => field_check key st
    | None => (inr tt, st)
    end.
Proof.
  intros Hoff field_check. rewrite checkObject_plain.
  apply forEach_first_throw; [|assumption].
  intros key. apply quiet_checkSchemaField.
Qed.

(** In warn-only mode a loop of [checkType] calls logs one message for
    each mismatch, in order, and returns normally. *)
Lemma forEach_checkType_log {A : Type} (l : list A) (val ty : A -> value)
  (st : state) :
  warn_only st = true ->
  forEach l (fun x => checkType h (val x) (ty x) VUndefined) st
  = (inr tt,
     log_all (map (fun x => type_message h (val x) (ty x) VUndefined)
                  (filter (fun x => mismatch (ty x) (val x)) l)) st).
Proof.
  revert st. induction l as [|x l IH]; intros st Hst; simpl.
  - now rewrite log_all_nil.
  - unfold mismatch at 1.
    destruct (str_strict_eq (typeof (val x)) (ty x)) eqn:Hx; simpl.
    + erewrite bind_ok by (now apply checkType_match). now apply IH.
    + erewrite bind_ok
        by (rewrite checkType_mismatch by assumption;
            now apply _throwError_warn).
      rewrite IH by exact Hst. now rewrite log_all_cons.
Qed.

(** X15. In warn-only mode, [checkObject] on a plain object against a
    schema whose descriptors are all kind names returns normally and logs
    one "Expected ... but received ..." message for each declared key whose
    value has another kind, in the order of the schema's keys, and nothing
    else. *)
Theorem checkObject_warn_only_logs_all (chain sc : list proto)
  (props fields : list (string * value)) (st : state) :
  string_kinds fields ->
  warn_only st = true ->
  checkObject h (VObj chain props) (VObj sc fields) st
  = (inr tt,
     log_all
       (map (fun key => type_message h (obj_get h chain props key)
                          (obj_get h sc fields key) VUndefined)
            (filter (fun key => mismatch (obj_get h sc fields key)
                                  (obj_get h chain props key))
                    (own_keys fields))) st).
Proof.
  intros Hkinds Hon. rewrite checkObject_plain.
  rewrite <- (forEach_checkType_log (own_keys fields)
                (fun key => obj_get h chain props key)
                (fun key => obj_get h sc fields key) st Hon).
  apply forEach_ext_in. intros key Hkey s.
  apply own_keys_In, assoc_declared in Hkey as [d Hd].
  destruct (Hkinds key d (assoc_In _ _ _ Hd)) as [k ->].
  unfold obj_get at 2 4. now rewrite Hd.
Qed.

(** X16. A field declared with a kind name is required: when a declared
    key is absent from the object (it reads [undefined]) and its descriptor is
    a kind name other than "undefined", [checkObject] does not return
    normally while warn-only mode is off. *)
Theorem checkObject_missing_field (chain sc : list proto)
  (props fields : list (string * value)) (key k : string) (st : state) :
  warn_only st = false ->
  assoc key fields = Some (VStr k) ->
  obj_get h chain props key = VUndefined ->
  k <> "undefined" ->
  exists e, fst (checkObject h (VObj chain props) (VObj sc fields) st) = inl e.
Proof.
  intros Hoff Hd Hmissing Hk.
  destruct (fst (checkObject h (VObj chain props) (VObj sc fields) st))
    as [e|[]] eqn:Hrun; [now exists e|exfalso].
  rewrite checkObject_plain in Hrun.
  rewrite forEach_ok_iff in Hrun
    by (assumption || intros x; apply quiet_checkSchemaField).
  specialize (Hrun key).
  rewrite Hmissing in Hrun. unfold obj_get at 1 in Hrun. rewrite Hd in Hrun.
  assert (Hin : In key (own_keys fields)).
  { apply own_keys_In. apply assoc_In in Hd.
    now apply (in_map fst) in Hd. }
  specialize (Hrun Hin). unfold _checkSchemaField in Hrun. simpl in Hrun.
  rewrite checkType_mismatch in Hrun.
  - rewrite _throwError_raise in Hrun by assumption. discriminate.
  - change (("undefined" =? k) = false). apply String.eqb_neq. congruence.
Qed.

End Fields.

(** ** normalize, key by key *)

Section Defaults.

Variable h : host.
Variable schema : value.
Variable chain : list proto.

Lemma forEach_app {St A : Type} (l1 l2 : list A) (f : A -> M St unit)
  (s : St) :
  forEach (l1 ++ l2)%list f s = bind (forEach l1 f) (fun _ => forEach l2 f) s.
Proof.
  revert s. induction l1 as [|x l1 IH]; intros s; simpl; [reflexivity|].
  unfold bind in *. destruct (f x s) as [[e|[]] s1]; [reflexivity|].
  apply IH.
Qed.

(** The loop never changes what a key reads when that key already reads
    something, or is not one of the keys of the loop. *)
Lemma forEach_fill_keeps (keys : list string) (data data1 : object)
  (r : result unit) (key : string) :
  forEach keys (fill_default h schema chain) data = (r, data1) ->
  is_undefined (obj_get h chain data key) = false \/ ~ In key keys ->
  obj_get h chain data1 key = obj_get h chain data key.
Proof.
  revert data. induction keys as [|k keys IH]; intros data; simpl.
  - now intros [= _ <-].
  - unfold bind. rewrite fill_default_eq.
    destruct (default_of h schema k) as [e|dv]; [now intros [= _ <-]|].
    destruct (is_undefined (obj_get h chain data k)
              && negb (is_undefined dv)) eqn:Hcond.
    + intros Hrest Hkey.
      assert (Hne : key <> k).
      { intros ->. apply andb_true_iff in Hcond as [Hcur _].
        destruct Hkey as [Hdef|Hnot]; [congruence|apply Hnot; now left]. }
      rewrite (IH _ Hrest); rewrite obj_get_assign_other by assumption.
      * reflexivity.
      * destruct Hkey as [Hdef|Hnot]; [now left|right].
        intros Hin. apply Hnot. now right.
    + intros Hrest Hkey. apply (IH _ Hrest).
      destruct Hkey as [Hdef|Hnot]; [now left|right].
      intros Hin. apply Hnot. now right.
Qed.

(** X17. [normalize] never overwrites: whatever [data[key]] read before
    the call, if it was not [undefined] it reads the same afterwards
    ([null], [0], [""] and [false] are kept), and a key the schema does not
    declare reads the same as well. This holds also when the call throws
    half-way. *)
Theorem normalize_keeps_existing (data data1 : object) (r : result value) :
  normalize h schema chain data = (r, data1) ->
  (forall key,
     is_undefined (obj_get h chain data key) = false ->
     obj_get h chain data1 key = obj_get h chain data key)
  /\ (forall keys key,
        Object_keys h schema = inr keys ->
        ~ In key keys ->
        obj_get h chain data1 key = obj_get h chain data key).
Proof.
  unfold normalize, bind at 1 2, lift.
  destruct (Object_keys h schema) as [e|keys].
  { intros [= _ <-]. split; [reflexivity|discriminate]. }
  unfold bind at 1.
  destruct (forEach keys (fill_default h schema chain) data)
    as [res d1] eqn:Hloop.
  intros Hrun.
  assert (Hd1 : d1 = data1).
  { destruct res as [e|[]]; [now injection Hrun|].
    unfold bind, get, ret in Hrun. now injection Hrun. }
  subst d1. split.
  - intros key Hdef. apply (forEach_fill_keeps keys data data1 res).
    + assumption.
    + now left.
  - intros keys' key [= <-] Hnot.
    apply (forEach_fill_keeps keys data data1 res); [assumption|now right].
Qed.

Lemma forEach_fill_assigns (keys : list string) (data data1 : object)
  (key : string) (d : value) :
  forEach keys (fill_default h schema chain) data = (inr tt, data1) ->
  In key keys ->
  default_of h schema key = inr d ->
  is_undefined d = false ->
  is_undefined (obj_get h chain data key) = true ->
  obj_get h chain data1 key = d.
Proof.
  intros Hrun Hin Hd Hdef. revert data Hrun Hin.
  induction keys as [|k keys IH]; intros data; simpl; [intros _ []|].
  unfold bind.
  destruct (fill_default h schema chain k data) as [[e|[]] d1] eqn:Hk;
    [discriminate|].
  intros Hrest Hin Hcur. rewrite fill_default_eq in Hk.
  destruct (string_dec k key) as [->|Hne].
  - rewrite Hd, Hcur, Hdef in Hk. simpl in Hk. injection Hk as <-.
    rewrite (forEach_fill_keeps keys _ data1 (inr tt) key Hrest).
    + apply obj_get_assign_same.
    + left. now rewrite obj_get_assign_same.
  - destruct Hin as [Hk'|Hin]; [congruence|].
    apply (IH d1 Hrest Hin).
    destruct (default_of h schema k) as [e|dv]; [discriminate|].
    injection Hk as <-.
    destruct (is_undefined (obj_get h chain data k)
              && negb (is_undefined dv)); [|assumption].
    rewrite obj_get_assign_other by congruence. assumption.
Qed.

(** X18. [normalize] fills what is missing: after a call that returns,
    every key of the schema whose descriptor carries a [default] other than
    [undefined], and which read [undefined] in [data] before, reads that
    default. Falsy defaults ([0], [""], [false], [null]) are filled in like
    any other. *)
Theorem normalize_fills_defaults (data data1 : object) (r : value)
  (keys : list string) (key : string) (d : value) :
  normalize h schema chain data = (inr r, data1) ->
  Object_keys h schema = inr keys ->
  In key keys ->
  default_of h schema key = inr d ->
  is_undefined d = false ->
  is_undefined (obj_get h chain data key) = true ->
  obj_get h chain data1 key = d.
Proof.
  unfold normalize, bind at 1 2, lift. intros Hrun Hkeys.
  rewrite Hkeys in Hrun. unfold bind at 1 in Hrun.
  destruct (forEach keys (fill_default h schema chain) data)
    as [[e|[]] d1] eqn:Hloop; [discriminate|].
  unfold bind, get, ret in Hrun. injection Hrun as _ <-.
  now apply (forEach_fill_assigns keys data).
Qed.

(** X19. [normalize] is not all-or-nothing: when it reaches a key whose
    descriptor is [null] or [undefined] it throws the language's
    [TypeError] on reading [.default], and the defaults it assigned for the
    keys before that one stay in [data]. *)
Theorem normalize_throws_midway (data data' : object)
  (before after : list string) (key : string) (descriptor : value) :
  Object_keys h schema = inr (before ++ key :: after)%list ->
  forEach before (fill_default h schema chain) data = (inr tt, data') ->
  js_get h schema key = inr descriptor ->
  descriptor = VNull \/ descriptor = VUndefined ->
  normalize h schema chain data = (inl NativeTypeError, data').
Proof.
  intros Hkeys Hbefore Hget Hd. unfold normalize, bind at 1 2, lift.
  rewrite Hkeys. unfold bind at 1. rewrite forEach_app.
  unfold bind at 1. rewrite Hbefore. simpl. unfold bind at 1.
  rewrite fill_default_eq. unfold default_of. rewrite Hget.
  destruct Hd as [->| ->]; reflexivity.
Qed.

End Defaults.

(** ** enforceType *)

Section EnforceType.

Variable h : host.

Lemma index_key_inj (i j : nat) : index_key i = index_key j -> i = j.
Proof.
  unfold index_key. intros Hk.
  apply (f_equal NilEmpty.uint_of_string) in Hk.
  rewrite !NilEmpty.usu in Hk. injection Hk as Hk.
  now apply Unsigned.to_uint_inj.
Qed.

Lemma index_key_not_length (i : nat) : (index_key i =? "length") = false.
Proof.
  apply String.eqb_neq. unfold index_key. intros Hk.
  apply (f_equal NilEmpty.uint_of_string) in Hk.
  rewrite NilEmpty.usu in Hk. discriminate.
Qed.

Lemma index_of_key_found (a n i : nat) :
  a <= i < a + n ->
  find (fun j => index_key j =? index_key i) (seq a n) = Some i.
Proof.
  revert a. induction n as [|n IH]; intros a Hi; simpl; [lia|].
  destruct (String.eqb_spec (index_key a) (index_key i)) as [He|Hne].
  - apply index_key_inj in He. now subst.
  - apply IH. assert (a <> i) by congruence. lia.
Qed.

(** [items[i]] for an index in range. *)
Lemma js_get_index (items : list value) (i : nat) :
  i < length items ->
  js_get h (VArr items) (index_key i) = inr (nth i items VUndefined).
Proof.
  intros Hi. unfold js_get, index_of_key.
  rewrite index_key_not_length.
  rewrite index_of_key_found by lia. reflexivity.
Qed.

Lemma forEach_from_app {St A : Type} (i : nat) (l1 l2 : list A)
  (f : A -> nat -> M St unit) (s : St) :
  forEach_from i (l1 ++ l2)%list f s
  = bind (forEach_from i l1 f)
      (fun _ => forEach_from (i + length l1) l2 f) s.
Proof.
  revert i s. induction l1 as [|x l1 IH]; intros i s; simpl.
  - unfold bind, ret. now rewrite Nat.add_0_r.
  - unfold bind in *. destruct (f x i s) as [[e|[]] s1]; [reflexivity|].
    rewrite IH. now rewrite Nat.add_succ_r.
Qed.

Lemma check_argument_kind (ks : list string) (arg : value) (i : nat) :
  i < length ks ->
  check_argument h (VArr (map VStr ks)) arg i
  = checkType h arg (VStr (nth i ks "")) VUndefined.
Proof.
  intros Hi. unfold check_argument.
  rewrite js_get_index by now rewrite length_map.
  rewrite (nth_indep _ VUndefined (VStr "")) by now rewrite length_map.
  rewrite map_nth. reflexivity.
Qed.

(** The pairs of an argument and its declared kind, from index [i] on. *)
Lemma skipn_nth (ks : list string) (i : nat) :
  i < length ks -> skipn i ks = nth i ks "" :: skipn (S i) ks.
Proof.
  revert i. induction ks as [|k ks IH]; intros i Hi; simpl in *; [lia|].
  destruct i as [|i]; [reflexivity|]. apply IH. lia.
Qed.

Lemma check_arguments_raise (ks : list string) (args : list value) (i : nat)
  (st : state) :
  warn_only st = false ->
  i + length args <= length ks ->
  forEach_from i args (check_argument h (VArr (map VStr ks))) st
  = match find (fun ak => negb (typeof (fst ak) =? snd ak))
            (combine args (skipn i ks)) with
    | Some ak =>
        (inl (JsError ("TypeError: Expected " ++ snd ak ++ " but received "
                       ++ typeof (fst ak))), st)
    | None => (inr tt, st)
    end.
Proof.
  intros Hoff. revert i. induction args as [|arg args IH]; intros i Hlen;
    simpl in *; [reflexivity|].
  rewrite skipn_nth by lia. simpl.
  rewrite check_argument_kind by lia.
  destruct (typeof arg =? nth i ks "") eqn:Hk; simpl.
  - erewrite bind_ok by (apply checkType_match; exact Hk).
    apply IH. lia.
  - erewrite bind_throws; [reflexivity|].
    rewrite checkType_mismatch by exact Hk.
    now rewrite _throwError_raise.
Qed.

Lemma check_arguments_warn (ks : list string) (args : list value) (i : nat)
  (st : state) :
  warn_only st = true ->
  i + length args <= length ks ->
  forEach_from i args (check_argument h (VArr (map VStr ks))) st
  = (inr tt,
     log_all
       (map (fun ak => VStr ("TypeError: Expected " ++ snd ak
                             ++ " but received " ++ typeof (fst ak)))
            (filter (fun ak => negb (typeof (fst ak) =? snd ak))
                    (combine args (skipn i ks)))) st).
Proof.
  revert i st. induction args as [|arg args IH]; intros i st Hon Hlen;
    simpl in *.
  - now rewrite log_all_nil.
  - rewrite skipn_nth by lia. simpl.
    rewrite check_argument_kind by lia.
    destruct (typeof arg =? nth i ks "") eqn:Hk; simpl.
    + erewrite bind_ok by (apply checkType_match; exact Hk).
      apply IH; [assumption|lia].
    + erewrite bind_ok
        by (rewrite checkType_mismatch by exact Hk;
            now apply _throwError_warn).
      rewrite IH by (assumption || lia). now rewrite log_all_cons.
Qed.

Lemma call_and_return (func : value) (args : list value) (returnType : value)
  (st : state) :
  truthy returnType = false ->
  (result <- lift (js_call h func VUndefined args) ;;
   (if truthy returnType then
      if typeof returnType =? "string" then
        checkType h result returnType VUndefined
      else checkInstance h result returnType VUndefined
    else ret tt) ;;
   ret result) st
  = (js_call h func VUndefined args, st).
Proof.
  intros ->. unfold bind, lift, ret.
  destruct (js_call h func VUndefined args); reflexivity.
Qed.

(** X20. [enforceType(func, kinds)] with kind names for the parameters
    and no return type, called with no more arguments than there are kinds,
    while warn-only mode is off: the call throws the "Expected ... but
    received ..." error of the first argument whose [typeof] is not its
    kind, without calling [func]; when there is none it is the call of
    [func], whose result or exception it passes on. Parameters for which no
    argument is given are not checked. *)
Theorem enforceType_kinds (func returnType : value) (ks : list string)
  (args : list value) (st : state) :
  warn_only st = false ->
  length args <= length ks ->
  truthy returnType = false ->
  enforceType h func (VArr (map VStr ks)) returnType args st
  = match find (fun ak => negb (typeof (fst ak) =? snd ak))
            (combine args ks) with
    | Some ak =>
        (inl (JsError ("TypeError: Expected " ++ snd ak ++ " but received "
                       ++ typeof (fst ak))), st)
    | None => (js_call h func VUndefined args, st)
    end.
Proof.
  intros Hoff Hlen Hret. unfold enforceType. unfold bind at 1.
  rewrite check_arguments_raise by (assumption || simpl; lia). simpl.
  destruct (find _ (combine args ks)); [reflexivity|].
  now apply call_and_return.
Qed.

(** X21. In warn-only mode the same wrapper always calls [func]: every
    argument of the wrong kind is logged, in order, and the result or the
    exception of [func] is passed on all the same. *)
Theorem enforceType_kinds_warn_only (func returnType : value)
  (ks : list string) (args : list value) (st : state) :
  warn_only st = true ->
  length args <= length ks ->
  truthy returnType = false ->
  enforceType h func (VArr (map VStr ks)) returnType args st
  = (js_call h func VUndefined args,
     log_all
       (map (fun ak => VStr ("TypeError: Expected " ++ snd ak
                             ++ " but received " ++ typeof (fst ak)))
            (filter (fun ak => negb (typeof (fst ak) =? snd ak))
                    (combine args ks))) st).
Proof.
  intros Hon Hlen Hret. unfold enforceType. unfold bind at 1.
  rewrite check_arguments_warn by (assumption || simpl; lia). simpl.
  now apply call_and_return.
Qed.

(** X22. An argument without a usable type makes the wrapper throw: when
    the arguments before it have passed and [paramTypes] at its index is
    neither a string, nor an ["array", kind] pair, nor a function (it is
    [undefined] when more arguments are given than types were declared), the
    call ends in the language's [TypeError], in either mode, and [func] is
    not called. *)
Theorem enforceType_undeclared_argument (func paramTypes returnType : value)
  (before after : list value) (arg d : value) (st st' : state) :
  forEach_from 0 before (check_argument h paramTypes) st = (inr tt, st') ->
  js_get h paramTypes (index_key (length before)) = inr d ->
  typeof d <> "string" ->
  is_array_descriptor h d = false ->
  typeof d <> "function" ->
  enforceType h func paramTypes returnType (before ++ arg :: after)%list st
  = (inl NativeTypeError, st').
Proof.
  intros Hbefore Hget Hs Ha Hf. unfold enforceType. unfold bind at 1.
  rewrite forEach_from_app. unfold bind at 1. rewrite Hbefore. simpl.
  unfold bind at 1. unfold check_argument at 1. unfold bind at 1, lift.
  rewrite Hget, Ha. apply String.eqb_neq in Hs as ->.
  unfold checkInstance, bind, lift.
  destruct d; try reflexivity. now elim Hf.
Qed.

(** X23. [enforceType] uses a function given as a type for an instance
    check, unlike the schema field check, which calls it: with a
    constructor [C] declared for the only argument and warn-only mode off,
    the wrapper calls [func] when the argument is an object with
    [C.prototype] in its chain, and otherwise throws "Expected instance of
    (C.name)". *)
Theorem enforceType_constructor (c : func) (func returnType arg : value)
  (p : proto) (st : state) :
  fn_prototype c = Some p ->
  warn_only st = false ->
  truthy returnType = false ->
  enforceType h func (VArr [VFun c]) returnType [arg] st
  = if is_instance arg p then (js_call h func VUndefined [arg], st)
    else (inl (JsError ("TypeError: Expected instance of " ++ fn_name c)),
          st).
Proof.
  intros Hp Hoff Hret. unfold enforceType. unfold bind at 1. simpl.
  unfold bind at 1. unfold check_argument. unfold bind at 1, lift. simpl.
  unfold checkInstance, is_instance, instanceof. cbv zeta. rewrite Hp.
  destruct (proto_chain arg) as [chain|];
    [destruct (existsb (proto_eqb p) chain)|]; simpl;
    try (now apply call_and_return);
    unfold bind, lift, or_else; simpl;
    now rewrite _throwError_raise.
Qed.

(** X24. The return type is checked after the call: when the arguments
    have passed, [func] has returned [r] and [returnType] is the kind name
    [k], then while warn-only mode is off the wrapper returns [r] when
    [typeof r] is [k] and otherwise throws "Expected k but received
    (typeof r)". *)
Theorem enforceType_return_kind (func paramTypes r : value) (k : string)
  (args : list value) (st : state) :
  warn_only st = false ->
  k <> "" ->
  forEach_from 0 args (check_argument h paramTypes) st = (inr tt, st) ->
  js_call h func VUndefined args = inr r ->
  enforceType h func paramTypes (VStr k) args st
  = if typeof r =? k then (inr r, st)
    else (inl (JsError ("TypeError: Expected " ++ k ++ " but received "
                        ++ typeof r)), st).
Proof.
  intros Hoff Hk Hargs Hcall.
  assert (Ht : truthy (VStr k) = true).
  { simpl. apply negb_true_iff, String.eqb_neq. exact Hk. }
  unfold enforceType. rewrite Ht. unfold bind at 1.
  rewrite Hargs. cbv beta iota. unfold bind at 1, lift. rewrite Hcall.
  cbv beta iota. change (typeof (VStr k) =? "string") with true.
  cbv beta iota. unfold bind, ret.
  destruct (typeof r =? k) eqn:Hr.
  - now rewrite checkType_match.
  - rewrite checkType_mismatch by exact Hr.
    now rewrite _throwError_raise.
Qed.

End EnforceType.

(** ** withPropTypes *)

Section PropTypes.

Variable h : host.

(** X25. A prop declared ["optional"] is accepted only when it is
    absent: when its value (the prop, or else its default) is [null] or
    [undefined] the check of that prop passes, and for any other value it
    reports "Expected optional but received ...", because the descriptor is
    then used as a kind name and no value has the kind "optional". *)
Theorem optional_prop_only_absent (propTypes defaultProps props : value)
  (key : string) (propValue : value) (st : state) :
  js_get h propTypes key = inr (VStr "optional") ->
  prop_value h defaultProps props key = inr propValue ->
  check_prop h propTypes defaultProps props key st
  = if is_nullish propValue then (inr tt, st)
    else _throwError h (VStr ("TypeError: Expected optional but received "
                              ++ typeof propValue)) st.
Proof.
  intros Hd Hv. unfold check_prop, bind, lift. rewrite Hd, Hv.
  change (str_strict_eq "optional" (VStr "optional")) with true.
  rewrite andb_false_r. simpl.
  destruct (is_nullish propValue) eqn:Hn; simpl; [reflexivity|].
  unfold _checkSchemaField. simpl.
  rewrite checkType_mismatch; [reflexivity|].
  destruct propValue; reflexivity.
Qed.

(** X26. A prop declared with anything but ["optional"]: when neither
    the props nor the defaults give it a value (it is [undefined]), the
    check reports "Prop 'key' is required but missing." and does nothing
    else; when its value is [null], which happens when the default is
    [null], the check passes without looking at the declared type. *)
Theorem required_prop_missing_or_null (propTypes defaultProps props : value)
  (key : string) (d propValue : value) (st : state) :
  js_get h propTypes key = inr d ->
  str_strict_eq "optional" d = false ->
  prop_value h defaultProps props key = inr propValue ->
  (propValue = VUndefined ->
     check_prop h propTypes defaultProps props key st
     = _throwError h (VStr ("TypeError: Prop '" ++ key
                            ++ "' is required but missing.")) st)
  /\ (propValue = VNull ->
      check_prop h propTypes defaultProps props key st = (inr tt, st)).
Proof.
  intros Hd Hopt Hv. unfold check_prop, bind, lift. rewrite Hd, Hv, Hopt.
  split; intros ->; simpl; [|reflexivity].
  destruct (_throwError h _ st) as [[e|[]] s1]; reflexivity.
Qed.

Lemma quiet_check_prop (propTypes defaultProps props : value) (key : string) :
  quiet (check_prop h propTypes defaultProps props key).
Proof.
  unfold check_prop.
  repeat (apply quiet_bind; [|intros ?]);
    auto using quiet_lift, quiet_when, quiet_throwError,
      quiet_checkSchemaField.
Qed.

(** X27. What the wrapper renders, while warn-only mode is off: for
    prop types given as a plain object, the call returns an element exactly
    when the check of every declared prop passes, and that element is the
    wrapped component with the props as they were given: a default is used to
    validate, it is not handed to the component. *)
Theorem withPropTypes_renders (WrappedComponent defaultProps props : value)
  (sc : list proto) (fields : list (string * value)) (st : state) :
  warn_only st = false ->
  let defaults := default_arg defaultProps (VObj [ObjectProto] []) in
  let passes key :=
    fst (check_prop h (VObj sc fields) defaults props key st) = inr tt in
  ((forall key, In key (map fst fields) -> passes key) ->
     withPropTypes h WrappedComponent (VObj sc fields) defaultProps props st
     = (inr {| el_type := WrappedComponent; el_props := spread h props |},
        st))
  /\ (forall el st',
        withPropTypes h WrappedComponent (VObj sc fields) defaultProps props st
        = (inr el, st') ->
        forall key, In key (map fst fields) -> passes key).
Proof.
  intros Hoff defaults passes.
  pose proof (forEach_ok_iff (own_keys fields)
                (check_prop h (VObj sc fields) defaults props) st
                (quiet_check_prop _ _ _) Hoff) as Hiff.
  pose proof (quiet_forEach (own_keys fields)
                (check_prop h (VObj sc fields) defaults props)
                (quiet_check_prop _ _ _) st Hoff) as Hquiet.
  assert (Hrun :
    withPropTypes h WrappedComponent (VObj sc fields) defaultProps props st
    = match forEach (own_keys fields)
              (check_prop h (VObj sc fields) defaults props) st with
      | (inl e, s1) => (inl e, s1)
      | (inr _, s1) =>
          (inr {| el_type := WrappedComponent; el_props := spread h props |},
           s1)
      end) by reflexivity.
  rewrite Hrun. clear Hrun.
  destruct (forEach (own_keys fields)
              (check_prop h (VObj sc fields) defaults props) st)
    as [[e|[]] s1]; simpl in *.
  - split.
    + intros Hall. exfalso.
      assert (Hno : @inl exn unit e = inr tt); [|discriminate].
      apply Hiff. intros key Hkey. apply Hall. now apply own_keys_In.
    + intros el st' [=].
  - subst s1. split; [reflexivity|].
    intros el st' _ key Hkey. apply (proj1 Hiff eq_refl).
    now apply own_keys_In.
Qed.

End PropTypes.

(** ** validateRequestBody *)

Section Middleware.

Variable h : host.
Variable native_message : string.

(** X28. The middleware answers or forwards: when the request has a body
    and [next] returns, then if [checkObject] on the body returns normally
    [next] is called once and nothing is sent, and if [checkObject] throws an
    error whose message can be read, [next] is not called and one reply is
    sent, with status 400 and [{error: message}]. Either way the middleware
    itself returns normally. *)
Theorem validateRequestBody_outcome (schema req payload : value) (fn : func)
  (returned : value) (st st' : state) :
  js_get h req "body" = inr payload ->
  host_call h fn VUndefined [] = Returns returned ->
  (checkObject h payload schema st = (inr tt, st') ->
     validateRequestBody h native_message schema req (VFun fn) (serving st)
     = (inr tt, {| engine := st'; forwarded := 1; sent := [] |}))
  /\ (forall err message,
        checkObject h payload schema st = (inl err, st') ->
        err_message h native_message err = inr message ->
        validateRequestBody h native_message schema req (VFun fn) (serving st)
        = (inr tt,
           {| engine := st'; forwarded := 0;
              sent := [{| status := 400;
                          body := VObj [ObjectProto] [("error", message)] |}]
           |})).
Proof.
  intros Hbody Hnext. split.
  - intros Hcheck.
    unfold validateRequestBody, try_catch, bind, lift, in_engine, serving.
    simpl. rewrite Hbody, Hcheck. simpl. now rewrite Hnext.
  - intros err message Hcheck Hmsg.
    unfold validateRequestBody, try_catch, bind, lift, in_engine, serving.
    simpl. rewrite Hbody, Hcheck. simpl. now rewrite Hmsg.
Qed.

(** X29. The call of [next] is inside the [try]: when the body passes
    [checkObject] and [next] then throws a value whose [message] can be
    read, the middleware catches it and sends status 400 with that message,
    as if validation had failed, although [next] was called. *)
Theorem validateRequestBody_catches_next (schema req payload : value)
  (fn : func) (thrown message : value) (st st' : state) :
  js_get h req "body" = inr payload ->
  checkObject h payload schema st = (inr tt, st') ->
  host_call h fn VUndefined [] = Throws thrown ->
  js_get h thrown "message" = inr message ->
  validateRequestBody h native_message schema req (VFun fn) (serving st)
  = (inr tt,
     {| engine := st'; forwarded := 1;
        sent := [{| status := 400;
                    body := VObj [ObjectProto] [("error", message)] |}] |}).
Proof.
  intros Hbody Hcheck Hnext Hmsg.
  unfold validateRequestBody, try_catch, bind, lift, in_engine, serving.
  simpl. rewrite Hbody, Hcheck. simpl. rewrite Hnext. simpl.
  now rewrite Hmsg.
Qed.

(** X30. In warn-only mode the middleware lets invalid bodies through:
    for a plain-object body and a schema of kind names, every mismatching
    field is logged, no reply is sent and [next] is called. *)
Theorem validateRequestBody_warn_only_forwards (req : value) (fn : func)
  (returned : value) (chain sc : list proto)
  (props fields : list (string * value)) (st : state) :
  js_get h req "body" = inr (VObj chain props) ->
  host_call h fn VUndefined [] = Returns returned ->
  string_kinds fields ->
  warn_only st = true ->
  exists st',
    validateRequestBody h native_message (VObj sc fields) req (VFun fn)
      (serving st)
    = (inr tt, {| engine := st'; forwarded := 1; sent := [] |})
    /\ console st'
       = (console st
          ++ map (fun key => type_message h (obj_get h chain props key)
                               (obj_get h sc fields key) VUndefined)
               (filter (fun key => mismatch (obj_get h sc fields key)
                                     (obj_get h chain props key))
                       (own_keys fields)))%list.
Proof.
  intros Hbody Hnext Hkinds Hon.
  pose proof (checkObject_plain h chain sc props fields st) as Hplain.
  assert (Hloop :
    forEach (own_keys fields)
      (fun key => _checkSchemaField h (obj_get h chain props key)
                    (obj_get h sc fields key)) st
    = forEach (own_keys fields)
        (fun key => checkType h (obj_get h chain props key)
                      (obj_get h sc fields key) VUndefined) st).
  { apply forEach_ext_in. intros key Hkey s.
    apply own_keys_In, assoc_declared in Hkey as [d Hd].
    destruct (Hkinds key d (assoc_In _ _ _ Hd)) as [k ->].
    unfold obj_get at 2 4. now rewrite Hd. }
  rewrite Hloop, forEach_checkType_log in Hplain by assumption.
  eexists. split.
  - unfold validateRequestBody, try_catch, bind, lift, in_engine, serving.
    simpl. rewrite Hbody, Hplain. simpl. rewrite Hnext. reflexivity.
  - reflexivity.
Qed.

End Middleware.

(* ================================================================== *)
(** * The further properties at concrete inputs *)
(* ================================================================== *)

Import Sample2.

Lemma warn_only_never_raises_witness :
  warn_only warning = true
  /\ fst (run sample_host (CheckType (num 1) (VStr "string") VUndefined)
            warning)
     <> inl (JsError "TypeError: Expected string but received number").
Proof.
  split; [reflexivity|].
  exact (warn_only_never_raises sample_host
           (CheckType (num 1) (VStr "string") VUndefined) warning _ eq_refl).
Defined.

Lemma default_mode_leaves_no_trace_witness :
  warn_only initial = false
  /\ snd (run sample_host
            (CheckArray (VArr [num 1; VStr "2"]) (VStr "number") VUndefined)
            initial) = initial.
Proof.
  split; [reflexivity|].
  exact (default_mode_leaves_no_trace sample_host
           (CheckArray (VArr [num 1; VStr "2"]) (VStr "number") VUndefined)
           initial eq_refl).
Defined.

Lemma schema_object_descriptor_throws_witness :
  let d := plain [("type", VStr "string"); ("default", VStr "Anonymous")] in
  typeof d <> "string"
  /\ is_array_descriptor sample_host d = false
  /\ typeof d <> "function"
  /\ _checkSchemaField sample_host (VStr "Bob") d initial
     = (inl NativeTypeError, initial).
Proof.
  cbv zeta.
  assert (Hs : typeof (plain [("type", VStr "string");
                              ("default", VStr "Anonymous")]) <> "string")
    by discriminate.
  assert (Hf : typeof (plain [("type", VStr "string");
                              ("default", VStr "Anonymous")]) <> "function")
    by discriminate.
  split; [exact Hs|]. split; [reflexivity|]. split; [exact Hf|].
  exact (schema_object_descriptor_throws sample_host (VStr "Bob") _ initial
           Hs eq_refl Hf).
Defined.

Lemma checkInstance_constructor_witness :
  fn_prototype MyClass = Some (ClassProto 0)
  /\ warn_only initial = false
  /\ checkInstance sample_host (VObj [ClassProto 0; ObjectProto] [])
       (VFun MyClass) VUndefined initial = (inr tt, initial)
  /\ checkInstance sample_host (plain []) (VFun MyClass) VUndefined initial
     = (inl (JsError "TypeError: Expected instance of MyClass"), initial)
  /\ checkInstance sample_host (num 5) (VFun MyClass) VUndefined initial
     = (inl (JsError "TypeError: Expected instance of MyClass"), initial).
Proof.
  split; [reflexivity|]. split; [reflexivity|]. split; [|split].
  - exact (checkInstance_constructor sample_host
             (VObj [ClassProto 0; ObjectProto] []) MyClass (ClassProto 0)
             VUndefined initial eq_refl eq_refl eq_refl).
  - exact (checkInstance_constructor sample_host (plain []) MyClass
             (ClassProto 0) VUndefined initial eq_refl eq_refl eq_refl).
  - exact (checkInstance_constructor sample_host (num 5) MyClass
             (ClassProto 0) VUndefined initial eq_refl eq_refl eq_refl).
Defined.

Lemma checkDate_is_instance_check_witness :
  proto_chain (num 0) = None
  /\ checkDate sample_host (num 0) initial
     = (inl (JsError "TypeError: Expected a Date"), initial)
  /\ checkDate sample_host (VObj [DateProto; ObjectProto] []) initial
     = (inr tt, initial).
Proof.
  split; [reflexivity|]. split.
  - exact (proj2 (checkDate_is_instance_check sample_host (num 0) initial)
             eq_refl).
  - exact (proj1 (checkDate_is_instance_check sample_host
                    (VObj [DateProto; ObjectProto] []) initial)).
Defined.

Lemma checkUnion_membership_witness :
  let kinds := [VStr "string"; VStr "number"] in
  ~ In (VStr (typeof (VBool true))) kinds
  /\ warn_only initial = false
  /\ checkUnion sample_host (VBool true) (VArr kinds) VUndefined initial
     = (inl (JsError
          "TypeError: Expected one of [string, number] but received boolean"),
        initial)
  /\ checkUnion sample_host (num 42) (VArr kinds) VUndefined initial
     = (inr tt, initial).
Proof.
  cbv zeta.
  assert (Hnot : ~ In (VStr (typeof (VBool true)))
                      [VStr "string"; VStr "number"]).
  { intros [H|[H|[]]]; discriminate H. }
  split; [exact Hnot|]. split; [reflexivity|]. split.
  - exact (proj2 (checkUnion_membership sample_host (VBool true)
                    [VStr "string"; VStr "number"] VUndefined initial)
             Hnot eq_refl eq_refl).
  - apply (proj2 (proj1 (checkUnion_membership sample_host (num 42)
                           [VStr "string"; VStr "number"] VUndefined
                           initial))).
    right. now left.
Defined.

Lemma checkUnion_string_kinds_witness :
  str_includes "string|number" (typeof (num 1)) = true
  /\ checkUnion sample_host (num 1) (VStr "string|number") VUndefined initial
     = (inr tt, initial).
Proof.
  split; [reflexivity|].
  exact (proj2 (checkUnion_string_kinds sample_host (num 1) "string|number"
                  VUndefined initial) eq_refl).
Defined.

Lemma checkCustom_exceptions_witness :
  host_call sample_host2 fail VUndefined [num 1] = Throws boom
  /\ typeof (VStr "isString") <> "function"
  /\ checkCustom sample_host2 (num 1) (VFun fail) VUndefined warning
     = (inl (Thrown boom), warning)
  /\ checkCustom sample_host2 (num 1) (VStr "isString") VUndefined warning
     = (inl NativeTypeError, warning).
Proof.
  assert (Hf : typeof (VStr "isString") <> "function") by discriminate.
  split; [reflexivity|]. split; [exact Hf|]. split.
  - exact (proj1 (checkCustom_exceptions sample_host2 (num 1) (VFun fail)
                    VUndefined warning) fail boom eq_refl eq_refl).
  - exact (proj2 (checkCustom_exceptions sample_host2 (num 1)
                    (VStr "isString") VUndefined warning) Hf).
Defined.

Lemma checkCustom_truthiness_witness :
  host_call sample_host isString VUndefined [num 1] = Returns (VBool false)
  /\ warn_only initial = false
  /\ checkCustom sample_host (num 1) (VFun isString) VUndefined initial
     = (inl (JsError "ValidationError: Custom validation failed"), initial).
Proof.
  split; [reflexivity|]. split; [reflexivity|].
  exact (proj2 (checkCustom_truthiness sample_host (num 1) isString
                  (VBool false) VUndefined initial eq_refl)
           eq_refl eq_refl eq_refl).
Defined.

Lemma checkNotNaN_only_NaN_witness :
  typeof (VStr "abc") <> "number"
  /\ warn_only initial = false
  /\ checkNotNaN sample_host (VStr "abc") initial = (inr tt, initial)
  /\ checkNotNaN sample_host (VNum NaN) initial
     = (inl (JsError "TypeError: Value should not be NaN"), initial).
Proof.
  assert (Hn : typeof (VStr "abc") <> "number") by discriminate.
  split; [exact Hn|]. split; [reflexivity|]. split.
  - exact (proj1 (proj2 (checkNotNaN_only_NaN sample_host (VStr "abc")
                           initial)) Hn).
  - exact (proj2 (proj2 (checkNotNaN_only_NaN sample_host (VStr "abc")
                           initial)) eq_refl).
Defined.

Lemma checkRange_inclusive_witness :
  warn_only initial = false
  /\ checkRange sample_host (num 10) (num 10) (num 100) initial
     = (inr tt, initial)
  /\ checkRange sample_host (num 100) (num 10) (num 100) initial
     = (inr tt, initial)
  /\ checkRange sample_host (num 9) (num 10) (num 100) initial
     = (inl (JsError "RangeError: Value should be between 10 and 100"),
        initial)
  /\ checkRange sample_host (num 101) (num 10) (num 100) initial
     = (inl (JsError "RangeError: Value should be between 10 and 100"),
        initial).
Proof.
  split; [reflexivity|]. split; [|split; [|split]].
  - apply (proj2 (checkRange_inclusive sample_host (inject_Z 10)
                    (inject_Z 10) (inject_Z 100) initial eq_refl)).
    split; unfold Qle; simpl; lia.
  - apply (proj2 (checkRange_inclusive sample_host (inject_Z 100)
                    (inject_Z 10) (inject_Z 100) initial eq_refl)).
    split; unfold Qle; simpl; lia.
  - apply (proj1 (checkRange_inclusive sample_host (inject_Z 9)
                    (inject_Z 10) (inject_Z 100) initial eq_refl)).
    left. unfold Qlt. simpl. lia.
  - apply (proj1 (checkRange_inclusive sample_host (inject_Z 101)
                    (inject_Z 10) (inject_Z 100) initial eq_refl)).
    right. unfold Qlt. simpl. lia.
Defined.

Lemma checkRange_accepts_NaN_witness :
  checkRange sample_host (VNum NaN) (num 10) (num 100) initial
  = (inr tt, initial)
  /\ checkRange sample_host VUndefined (num 10) (num 100) initial
     = (inr tt, initial).
Proof.
  split.
  - exact (checkRange_accepts_NaN sample_host (VNum NaN) (num 10) (num 100)
             initial (or_introl eq_refl)).
  - exact (checkRange_accepts_NaN sample_host VUndefined (num 10) (num 100)
             initial (or_intror eq_refl)).
Defined.

Lemma checkObject_first_failure_witness :
  warn_only initial = false
  /\ checkObject sample_host (plain badAlice) (plain userSchema) initial
     = (inl (JsError "TypeError: Expected string but received number"),
        initial).
Proof.
  split; [reflexivity|].
  exact (checkObject_first_failure sample_host [ObjectProto] [ObjectProto]
           badAlice userSchema initial eq_refl).
Defined.

Lemma userSchema_kinds : string_kinds userSchema.
Proof.
  intros key d [H|[H|[]]]; injection H as _ <-; eexists; reflexivity.
Defined.

Lemma checkObject_warn_only_logs_all_witness :
  string_kinds userSchema
  /\ warn_only warning = true
  /\ checkObject sample_host (plain badAlice) (plain userSchema) warning
     = (inr tt,
        log_all [VStr "TypeError: Expected string but received number";
                 VStr "TypeError: Expected number but received string"]
                warning).
Proof.
  split; [exact userSchema_kinds|]. split; [reflexivity|].
  exact (checkObject_warn_only_logs_all sample_host [ObjectProto]
           [ObjectProto] badAlice userSchema warning userSchema_kinds
           eq_refl).
Defined.

Lemma checkObject_missing_field_witness :
  warn_only initial = false
  /\ assoc "age" userSchema = Some (VStr "number")
  /\ obj_get sample_host [ObjectProto] [("name", VStr "Alice")] "age"
     = VUndefined
  /\ "number" <> "undefined"
  /\ exists e,
       fst (checkObject sample_host (plain [("name", VStr "Alice")])
              (plain userSchema) initial) = inl e.
Proof.
  assert (Hk : "number" <> "undefined") by discriminate.
  split; [reflexivity|]. split; [reflexivity|]. split; [reflexivity|].
  split; [exact Hk|].
  exact (checkObject_missing_field sample_host [ObjectProto] [ObjectProto]
           [("name", VStr "Alice")] userSchema "age" "number" initial
           eq_refl eq_refl eq_refl Hk).
Defined.

Lemma normalize_keeps_existing_witness :
  let data := [("email", VStr "user@example.com"); ("age", VNull)] in
  let filled :=
    [("email", VStr "user@example.com"); ("age", VNull);
     ("name", VStr "Anonymous")] in
  normalize sample_host defaultsSchema [ObjectProto] data
  = (inr (plain filled), filled)
  /\ is_undefined (obj_get sample_host [ObjectProto] data "age") = false
  /\ obj_get sample_host [ObjectProto] filled "age"
     = obj_get sample_host [ObjectProto] data "age"
  /\ obj_get sample_host [ObjectProto] filled "email"
     = obj_get sample_host [ObjectProto] data "email".
Proof.
  cbv zeta. split; [reflexivity|]. split; [reflexivity|].
  pose proof (normalize_keeps_existing sample_host defaultsSchema
                [ObjectProto]
                [("email", VStr "user@example.com"); ("age", VNull)]
                _ _ eq_refl) as [Hkeep Hother].
  split.
  - exact (Hkeep "age" eq_refl).
  - apply (Hother ["name"; "age"] "email" eq_refl).
    intros [H|[H|[]]]; discriminate H.
Defined.

Lemma normalize_fills_defaults_witness :
  let data := [("email", VStr "user@example.com")] in
  let filled :=
    [("email", VStr "user@example.com"); ("name", VStr "Anonymous");
     ("age", num 18)] in
  normalize sample_host defaultsSchema [ObjectProto] data
  = (inr (plain filled), filled)
  /\ Object_keys sample_host defaultsSchema = inr ["name"; "age"]
  /\ default_of sample_host defaultsSchema "age" = inr (num 18)
  /\ is_undefined (obj_get sample_host [ObjectProto] data "age") = true
  /\ obj_get sample_host [ObjectProto] filled "age" = num 18.
Proof.
  cbv zeta. split; [reflexivity|]. split; [reflexivity|].
  split; [reflexivity|]. split; [reflexivity|].
  apply (normalize_fills_defaults sample_host defaultsSchema [ObjectProto]
           [("email", VStr "user@example.com")] _ _ ["name"; "age"] "age"
           (num 18) eq_refl eq_refl).
  - right. now left.
  - reflexivity.
  - reflexivity.
  - reflexivity.
Defined.

Lemma normalize_throws_midway_witness :
  Object_keys sample_host brokenSchema = inr (["name"] ++ "age" :: [])%list
  /\ js_get sample_host brokenSchema "age" = inr VNull
  /\ normalize sample_host brokenSchema [ObjectProto] []
     = (inl NativeTypeError, [("name", VStr "Anonymous")]).
Proof.
  split; [reflexivity|]. split; [reflexivity|].
  exact (normalize_throws_midway sample_host brokenSchema [ObjectProto] []
           [("name", VStr "Anonymous")] ["name"] [] "age" VNull
           eq_refl eq_refl eq_refl (or_introl eq_refl)).
Defined.

Lemma enforceType_kinds_witness :
  warn_only initial = false
  /\ enforceType sample_host2 (VFun greet)
       (VArr (map VStr ["string"; "number"])) VUndefined [VStr "Bob"] initial
     = (inr (VStr "hello"), initial)
  /\ enforceType sample_host2 (VFun greet)
       (VArr (map VStr ["string"; "number"])) VUndefined
       [VStr "Bob"; VStr "7"] initial
     = (inl (JsError "TypeError: Expected number but received string"),
        initial).
Proof.
  split; [reflexivity|]. split.
  - apply (enforceType_kinds sample_host2 (VFun greet) VUndefined
             ["string"; "number"] [VStr "Bob"] initial eq_refl).
    + simpl. lia.
    + reflexivity.
  - apply (enforceType_kinds sample_host2 (VFun greet) VUndefined
             ["string"; "number"] [VStr "Bob"; VStr "7"] initial eq_refl).
    + simpl. lia.
    + reflexivity.
Defined.

Lemma enforceType_kinds_warn_only_witness :
  warn_only warning = true
  /\ enforceType sample_host2 (VFun greet)
       (VArr (map VStr ["string"; "number"])) VUndefined
       [num 1; VStr "7"] warning
     = (inr (VStr "hello"),
        log_all [VStr "TypeError: Expected string but received number";
                 VStr "TypeError: Expected number but received string"]
                warning).
Proof.
  split; [reflexivity|].
  apply (enforceType_kinds_warn_only sample_host2 (VFun greet) VUndefined
           ["string"; "number"] [num 1; VStr "7"] warning eq_refl).
  - simpl. lia.
  - reflexivity.
Defined.

Lemma enforceType_undeclared_argument_witness :
  js_get sample_host2 (VArr [VStr "string"]) (index_key 1) = inr VUndefined
  /\ enforceType sample_host2 (VFun greet) (VArr [VStr "string"]) VUndefined
       ([VStr "Bob"] ++ [num 7])%list warning
     = (inl NativeTypeError, warning).
Proof.
  assert (Hs : typeof VUndefined <> "string") by discriminate.
  assert (Hf : typeof VUndefined <> "function") by discriminate.
  split; [reflexivity|].
  exact (enforceType_undeclared_argument sample_host2 (VFun greet)
           (VArr [VStr "string"]) VUndefined [VStr "Bob"] [] (num 7)
           VUndefined warning warning eq_refl eq_refl Hs eq_refl Hf).
Defined.

Lemma enforceType_constructor_witness :
  fn_prototype MyClass = Some (ClassProto 0)
  /\ warn_only initial = false
  /\ enforceType sample_host2 (VFun greet) (VArr [VFun MyClass]) VUndefined
       [VObj [ClassProto 0; ObjectProto] []] initial
     = (inr (VStr "hello"), initial)
  /\ enforceType sample_host2 (VFun greet) (VArr [VFun MyClass]) VUndefined
       [plain []] initial
     = (inl (JsError "TypeError: Expected instance of MyClass"), initial).
Proof.
  split; [reflexivity|]. split; [reflexivity|]. split.
  - exact (enforceType_constructor sample_host2 MyClass (VFun greet)
             VUndefined (VObj [ClassProto 0; ObjectProto] []) (ClassProto 0)
             initial eq_refl eq_refl eq_refl).
  - exact (enforceType_constructor sample_host2 MyClass (VFun greet)
             VUndefined (plain []) (ClassProto 0) initial
             eq_refl eq_refl eq_refl).
Defined.

Lemma enforceType_return_kind_witness :
  warn_only initial = false
  /\ js_call sample_host2 (VFun greet) VUndefined [VStr "Bob"]
     = inr (VStr "hello")
  /\ enforceType sample_host2 (VFun greet) (VArr [VStr "string"])
       (VStr "number") [VStr "Bob"] initial
     = (inl (JsError "TypeError: Expected number but received string"),
        initial)
  /\ enforceType sample_host2 (VFun greet) (VArr [VStr "string"])
       (VStr "string") [VStr "Bob"] initial
     = (inr (VStr "hello"), initial).
Proof.
  assert (Hn : "number" <> "") by discriminate.
  assert (Hs : "string" <> "") by discriminate.
  split; [reflexivity|]. split; [reflexivity|]. split.
  - exact (enforceType_return_kind sample_host2 (VFun greet)
             (VArr [VStr "string"]) (VStr "hello") "number" [VStr "Bob"]
             initial eq_refl Hn eq_refl eq_refl).
  - exact (enforceType_return_kind sample_host2 (VFun greet)
             (VArr [VStr "string"]) (VStr "hello") "string" [VStr "Bob"]
             initial eq_refl Hs eq_refl eq_refl).
Defined.

Lemma optional_prop_only_absent_witness :
  let propTypes := plain [("nickname", VStr "optional")] in
  js_get sample_host propTypes "nickname" = inr (VStr "optional")
  /\ prop_value sample_host (plain []) (plain [("nickname", VStr "Al")])
       "nickname" = inr (VStr "Al")
  /\ prop_value sample_host (plain []) (plain []) "nickname" = inr VUndefined
  /\ check_prop sample_host propTypes (plain [])
       (plain [("nickname", VStr "Al")]) "nickname" initial
     = (inl (JsError "TypeError: Expected optional but received string"),
        initial)
  /\ check_prop sample_host propTypes (plain []) (plain []) "nickname" initial
     = (inr tt, initial).
Proof.
  cbv zeta. split; [reflexivity|]. split; [reflexivity|].
  split; [reflexivity|]. split.
  - exact (optional_prop_only_absent sample_host
             (plain [("nickname", VStr "optional")]) (plain [])
             (plain [("nickname", VStr "Al")]) "nickname" (VStr "Al")
             initial eq_refl eq_refl).
  - exact (optional_prop_only_absent sample_host
             (plain [("nickname", VStr "optional")]) (plain []) (plain [])
             "nickname" VUndefined initial eq_refl eq_refl).
Defined.

Lemma required_prop_missing_or_null_witness :
  let propTypes := plain [("name", VStr "string")] in
  js_get sample_host propTypes "name" = inr (VStr "string")
  /\ prop_value sample_host (plain []) (plain []) "name" = inr VUndefined
  /\ prop_value sample_host (plain [("name", VNull)]) (plain []) "name"
     = inr VNull
  /\ check_prop sample_host propTypes (plain []) (plain []) "name" initial
     = (inl (JsError "TypeError: Prop 'name' is required but missing."),
        initial)
  /\ check_prop sample_host propTypes (plain [("name", VNull)]) (plain [])
       "name" initial
     = (inr tt, initial).
Proof.
  cbv zeta. split; [reflexivity|]. split; [reflexivity|].
  split; [reflexivity|]. split.
  - exact (proj1 (required_prop_missing_or_null sample_host
                    (plain [("name", VStr "string")]) (plain [])
                    (plain []) "name" (VStr "string") VUndefined initial
                    eq_refl eq_refl eq_refl) eq_refl).
  - exact (proj2 (required_prop_missing_or_null sample_host
                    (plain [("name", VStr "string")])
                    (plain [("name", VNull)]) (plain []) "name"
                    (VStr "string") VNull initial eq_refl eq_refl eq_refl)
             eq_refl).
Defined.

Lemma withPropTypes_renders_witness :
  warn_only initial = false
  /\ withPropTypes sample_host (VFun MyClass) (plain userSchema)
       (plain [("age", num 18)]) (plain [("name", VStr "Alice")]) initial
     = (inr {| el_type := VFun MyClass;
               el_props := [("name", VStr "Alice")] |}, initial).
Proof.
  split; [reflexivity|].
  apply (proj1 (withPropTypes_renders sample_host (VFun MyClass)
                  (plain [("age", num 18)]) (plain [("name", VStr "Alice")])
                  [ObjectProto] userSchema initial eq_refl)).
  intros key [<-|[<-|[]]]; reflexivity.
Defined.

Lemma validateRequestBody_outcome_witness :
  js_get sample_host2 (plain [("body", plain alice)]) "body"
  = inr (plain alice)
  /\ host_call sample_host2 proceed VUndefined [] = Returns VUndefined
  /\ validateRequestBody sample_host2 "native" (plain userSchema)
       (plain [("body", plain alice)]) (VFun proceed) (serving initial)
     = (inr tt, {| engine := initial; forwarded := 1; sent := [] |})
  /\ validateRequestBody sample_host2 "native" (plain userSchema)
       (plain [("body", plain badAlice)]) (VFun proceed) (serving initial)
     = (inr tt,
        {| engine := initial; forwarded := 0;
           sent := [{| status := 400;
                       body := plain [("error",
                         VStr "TypeError: Expected string but received number")]
                    |}] |}).
Proof.
  split; [reflexivity|]. split; [reflexivity|]. split.
  - exact (proj1 (validateRequestBody_outcome sample_host2 "native"
                    (plain userSchema) (plain [("body", plain alice)])
                    (plain alice) proceed VUndefined initial initial
                    eq_refl eq_refl) eq_refl).
  - exact (proj2 (validateRequestBody_outcome sample_host2 "native"
                    (plain userSchema) (plain [("body", plain badAlice)])
                    (plain badAlice) proceed VUndefined initial initial
                    eq_refl eq_refl) _ _ eq_refl eq_refl).
Defined.

Lemma validateRequestBody_catches_next_witness :
  host_call sample_host2 fail VUndefined [] = Throws boom
  /\ js_get sample_host2 boom "message" = inr (VStr "boom")
  /\ validateRequestBody sample_host2 "native" (plain userSchema)
       (plain [("body", plain alice)]) (VFun fail) (serving initial)
     = (inr tt,
        {| engine := initial; forwarded := 1;
           sent := [{| status := 400;
                       body := plain [("error", VStr "boom")] |}] |}).
Proof.
  split; [reflexivity|]. split; [reflexivity|].
  exact (validateRequestBody_catches_next sample_host2 "native"
           (plain userSchema) (plain [("body", plain alice)]) (plain alice)
           fail boom (VStr "boom") initial initial
           eq_refl eq_refl eq_refl eq_refl).
Defined.

Lemma validateRequestBody_warn_only_forwards_witness :
  warn_only warning = true
  /\ exists st',
       validateRequestBody sample_host2 "native" (plain userSchema)
         (plain [("body", plain badAlice)]) (VFun proceed) (serving warning)
       = (inr tt, {| engine := st'; forwarded := 1; sent := [] |})
       /\ console st'
          = [VStr "TypeError: Expected string but received number";
             VStr "TypeError: Expected number but received string"].
Proof.
  split; [reflexivity|].
  exact (validateRequestBody_warn_only_forwards sample_host2 "native"
           (plain [("body", plain badAlice)]) proceed VUndefined
           [ObjectProto] [ObjectProto] badAlice userSchema warning
           eq_refl eq_refl userSchema_kinds eq_refl).
Defined.
